(** * The rollup WebAssembly plugin (packages/wasm/src/index.ts)

    A shallow embedding of the plugin's [load] and [transform] hooks, of the
    Copy Registry ([copies]) they share, and of the runtime bootstrap
    [_loadWasmModule] that the plugin prepends to every bundle, together with
    the properties of the asset classification and of the bootstrap. *)

From Stdlib Require Import NArith ZArith Lia Ascii String.
From Stdlib.Strings Require Import Byte.
From stdpp Require Import base option list strings gmap.

Local Open Scope string_scope.

(** ** Byte buffers and JavaScript text

    A Node [Buffer] is a list of bytes.  A JavaScript string is a sequence of
    16-bit code units; the text that [load] hands to the bundler is kept as
    the list of its code units, since what matters is what each unit holds.
    Paths, options and emitted source are ordinary strings. *)

Abbreviation buffer := (list byte).
Abbreviation jsstring := (list N).

Module BinaryText.

(** [buffer.toString('binary')]: one code unit per byte, the byte's value. *)
Definition toString_binary (b : buffer) : jsstring := map Byte.to_N b.

(** The low eight bits of a code unit, as a byte. *)
Definition low_byte (c : N) : byte :=
  default x00 (Byte.of_N (N.land c 255)).

(** [Buffer.from(code, 'binary')]: one byte per code unit, higher bits
    dropped. *)
Definition Buffer_from_binary (s : jsstring) : buffer := map low_byte s.

End BinaryText.

(** ** Base64 (RFC 4648, with padding), as [Buffer#toString('base64')] writes
    it and as [Buffer.from(_, 'base64')] and [atob] read it back. *)

Module Base64.

Definition alphabet : string :=
  "ABCDEFGHIJKLMNOPQRSTUVWXYZabcdefghijklmnopqrstuvwxyz0123456789+/".

Definition pad : ascii := "="%char.

Definition digit (n : N) : ascii :=
  default pad (String.get (N.to_nat n) alphabet).

Definition value (c : ascii) : option N :=
  let n := N_of_ascii c in
  if (65 <=? n)%N && (n <=? 90)%N then Some (n - 65)%N
  else if (97 <=? n)%N && (n <=? 122)%N then Some (n - 71)%N
  else if (48 <=? n)%N && (n <=? 57)%N then Some (n + 4)%N
  else if (n =? 43)%N then Some 62%N
  else if (n =? 47)%N then Some 63%N
  else None.

(** Three bytes make four digits; one or two trailing bytes are padded. *)
Definition group3 (a b c : N) : string :=
  String (digit (a / 4))
    (String (digit ((a mod 4) * 16 + b / 16))
       (String (digit ((b mod 16) * 4 + c / 64))
          (String (digit (c mod 64)) ""))).

Definition group2 (a b : N) : string :=
  String (digit (a / 4))
    (String (digit ((a mod 4) * 16 + b / 16))
       (String (digit ((b mod 16) * 4)) (String pad ""))).

Definition group1 (a : N) : string :=
  String (digit (a / 4))
    (String (digit ((a mod 4) * 16)) (String pad (String pad ""))).

Fixpoint encode (b : buffer) : string :=
  match b with
  | [] => ""
  | [a] => group1 (Byte.to_N a)
  | [a; b] => group2 (Byte.to_N a) (Byte.to_N b)
  | a :: b :: c :: rest =>
      group3 (Byte.to_N a) (Byte.to_N b) (Byte.to_N c) +:+ encode rest
  end.

Definition byte1 (s1 s2 : N) : option byte := Byte.of_N (s1 * 4 + s2 / 16).
Definition byte2 (s2 s3 : N) : option byte :=
  Byte.of_N ((s2 mod 16) * 16 + s3 / 4).
Definition byte3 (s3 s4 : N) : option byte :=
  Byte.of_N ((s3 mod 4) * 64 + s4).

(** Strict decoding: the length is a multiple of four and padding occurs
    only in the last group. *)
Fixpoint decode (s : string) : option buffer :=
  match s with
  | "" => Some []
  | String c1 (String c2 (String c3 (String c4 rest))) =>
      s1 ← value c1; s2 ← value c2;
      x ← byte1 s1 s2;
      if Ascii.eqb c4 pad then
        if negb (String.eqb rest "") then None
        else if Ascii.eqb c3 pad then Some [x]
        else s3 ← value c3; y ← byte2 s2 s3; Some [x; y]
      else
        s3 ← value c3; s4 ← value c4;
        y ← byte2 s2 s3; z ← byte3 s3 s4;
        tl ← decode rest;
        Some (x :: y :: z :: tl)
  | _ => None
  end.

End Base64.

(** ** SHA-1 (FIPS 180-4) with its digest in lower-case hexadecimal:
    [createHash('sha1').update(buffer).digest('hex')] *)

Module SHA1.
Local Open Scope N_scope.

Definition mask32 (x : N) : N := N.land x 0xFFFFFFFF.
Definition add32 (a b : N) : N := mask32 (a + b).
Definition rotl (n x : N) : N :=
  mask32 (N.lor (N.shiftl x n) (N.shiftr x (32 - n))).
Definition not32 (x : N) : N := N.lxor x 0xFFFFFFFF.

(** The [k] low bytes of a number, most significant first. *)
Fixpoint be_bytes (k : nat) (x : N) : list N :=
  match k with
  | O => []
  | S k' => N.land (N.shiftr x (8 * N.of_nat k')) 255 :: be_bytes k' x
  end.

Definition padding (len : nat) : list N :=
  let zeros := ((64 - (len + 9) mod 64) mod 64)%nat in
  (128 :: replicate zeros 0 ++ be_bytes 8 (8 * N.of_nat len))%list.

Fixpoint words (bs : list N) : list N :=
  match bs with
  | a :: b :: c :: d :: rest =>
      N.lor (N.shiftl a 24) (N.lor (N.shiftl b 16) (N.lor (N.shiftl c 8) d))
      :: words rest
  | _ => []
  end.

Fixpoint expand (k : nat) (w : list N) : list N :=
  match k with
  | O => w
  | S k' =>
      let i := length w in
      let x :=
        N.lxor (N.lxor (nth (i - 3) w 0) (nth (i - 8) w 0))
               (N.lxor (nth (i - 14) w 0) (nth (i - 16) w 0)) in
      expand k' (w ++ [rotl 1 x])%list
  end.

Record state := { ha : N; hb : N; hc : N; hd : N; he : N }.

Definition initial : state :=
  {| ha := 0x67452301; hb := 0xEFCDAB89; hc := 0x98BADCFE;
     hd := 0x10325476; he := 0xC3D2E1F0 |}.

Definition round (i : nat) (w : N) (s : state) : state :=
  let '(f, k) :=
    if (i <? 20)%nat then
      (N.lor (N.land (hb s) (hc s)) (N.land (not32 (hb s)) (hd s)),
       0x5A827999)
    else if (i <? 40)%nat then
      (N.lxor (hb s) (N.lxor (hc s) (hd s)), 0x6ED9EBA1)
    else if (i <? 60)%nat then
      (N.lor (N.land (hb s) (hc s))
         (N.lor (N.land (hb s) (hd s)) (N.land (hc s) (hd s))),
       0x8F1BBCDC)
    else (N.lxor (hb s) (N.lxor (hc s) (hd s)), 0xCA62C1D6) in
  {| ha := add32 (add32 (add32 (rotl 5 (ha s)) f) (add32 (he s) k)) w;
     hb := ha s; hc := rotl 30 (hb s); hd := hc s; he := hd s |}.

Fixpoint rounds (i : nat) (ws : list N) (s : state) : state :=
  match ws with
  | [] => s
  | w :: rest => rounds (S i) rest (round i w s)
  end.

Definition block (bs : list N) (s : state) : state :=
  let t := rounds 0 (expand 64 (words bs)) s in
  {| ha := add32 (ha s) (ha t); hb := add32 (hb s) (hb t);
     hc := add32 (hc s) (hc t); hd := add32 (hd s) (hd t);
     he := add32 (he s) (he t) |}.

Fixpoint blocks (n : nat) (bs : list N) (s : state) : state :=
  match n with
  | O => s
  | S n' => blocks n' (drop 64 bs) (block (take 64 bs) s)
  end.

Definition hex_digit (n : N) : ascii :=
  default "0"%char (String.get (N.to_nat n) "0123456789abcdef").

Fixpoint hex (k : nat) (x : N) : string :=
  match k with
  | O => ""
  | S k' =>
      String (hex_digit (N.land (N.shiftr x (4 * N.of_nat k')) 15)) (hex k' x)
  end.

Definition digest_hex (b : buffer) : string :=
  let bs := (map Byte.to_N b ++ padding (length b))%list in
  let s := blocks (length bs / 64) bs initial in
  hex 8 (ha s) +:+ hex 8 (hb s) +:+ hex 8 (hc s) +:+ hex 8 (hd s)
    +:+ hex 8 (he s).
End SHA1.

(** ** What the plugin takes from Node

    [path.resolve] depends on the platform and on the working directory,
    and the file system is the machine's: the hooks are stated over any
    host. *)

Class NodeHost := {
  (** [path.resolve(x)] *)
  path_resolve : string → string;
}.

Inductive io_result (A : Type) : Type :=
  | IoOk (a : A)
  | IoError (e : string).
Arguments IoOk {A} a.
Arguments IoError {A} e.

Record Stats := { size : Z }.

Record file_system := {
  fsStatPromise : string → io_result Stats;
  fsReadFilePromise : string → io_result buffer;
}.

(** ** JavaScript truthiness and the few string and array primitives used *)

Module JS.

Definition truthy_number (n : Z) : bool := negb (n =? 0)%Z.

Definition truthy_string (s : string) : bool := negb (String.eqb s "").

Definition truthy_text (s : jsstring) : bool :=
  match s with [] => false | _ :: _ => true end.

(** A value that is a string or [null]. *)
Definition truthy_opt_string (s : option string) : bool :=
  match s with Some s => truthy_string s | None => false end.

(** [/\.wasm$/.test(id)] *)
Fixpoint test_wasm (id : string) : bool :=
  match id with
  | "" => false
  | String _ rest => String.eqb id ".wasm" || test_wasm rest
  end.

(** [l.indexOf(x)] *)
Fixpoint indexOf (l : list string) (x : string) : Z :=
  match l with
  | [] => -1
  | y :: rest =>
      if String.eqb y x then 0
      else let r := indexOf rest x in
           if (r =? -1)%Z then -1 else (r + 1)%Z
  end.

(** [s.substr(0, n)] *)
Definition substr0 (n : nat) (s : string) : string := String.substring 0 n s.

(** A template hole filled with a string or with [null]. *)
Definition show_opt (s : option string) : string :=
  match s with Some s => s | None => "null" end.

Definition quote (s : string) : string := "'" +:+ s +:+ "'".

End JS.

(** ** The plugin: options, closure, [load] and [transform] *)

(** The options object as a caller may pass it: the three fields of the
    published type ([sync], [limit], [publicPath]) and [maxFileSize], the
    one the implementation reads.  [None] is an absent field. *)
Record RollupWasmOptions := {
  opt_sync : option (list string);
  opt_limit : option Z;
  opt_publicPath : option string;
  opt_maxFileSize : option Z;
}.

(** What [wasm(options)] closes over.  [copies], the Copy Registry, is the
    one mutable part and is threaded through the hooks explicitly. *)
Record plugin := {
  syncFiles : list string;
  maxFileSize : Z;
  publicPath : string;
}.

Inductive load_result :=
  | LoadNull
  | LoadRejected (e : string)
  | LoadText (code : jsstring).

Inductive transform_result :=
  | TransformNull
  | TransformError (message : string)
  | TransformCode (code : string).

(** The three arguments that the emitted module passes ahead of [imports]. *)
Record bootstrap_call := {
  call_sync : bool;
  call_filepath : option string;
  call_src : option string;
}.

Inductive build_result :=
  | Emitted (code : string)
  | Failed (message : string)
  | Untouched.

Section Plugin.
Context `{NodeHost}.

Definition options_empty : RollupWasmOptions :=
  {| opt_sync := None; opt_limit := None;
     opt_publicPath := None; opt_maxFileSize := None |}.

Definition wasm (options : RollupWasmOptions) : plugin :=
  {| syncFiles := map path_resolve (default [] (opt_sync options));
     maxFileSize := default (14 * 1024)%Z (opt_maxFileSize options);
     publicPath := default "" (opt_publicPath options) |}.

(** The options with [limit] set to [l] and the other fields kept. *)
Definition with_limit (l : option Z) (o : RollupWasmOptions)
    : RollupWasmOptions :=
  {| opt_sync := opt_sync o; opt_limit := l;
     opt_publicPath := opt_publicPath o;
     opt_maxFileSize := opt_maxFileSize o |}.

(** [wasm({ limit: l })] *)
Definition only_limit (l : Z) : RollupWasmOptions :=
  with_limit (Some l) options_empty.

(** [Object.create(null)] *)
Definition copies_init : gmap string string := ∅.

(** Where a copied asset goes: [`${publicPath}${hash}.wasm`]. *)
Definition destination (p : plugin) (buf : buffer) : string :=
  publicPath p +:+ JS.substr0 16 (SHA1.digest_hex buf) +:+ ".wasm".

(** The condition under which [load] considers copying. *)
Definition over_limit (p : plugin) (stats : Stats) : bool :=
  (JS.truthy_number (maxFileSize p) && (size stats >? maxFileSize p)%Z)
  || (maxFileSize p =? 0)%Z.

Definition load_copies (p : plugin) (stats : Stats) (buf : buffer)
    (id : string) (copies : gmap string string) : gmap string string :=
  if over_limit p stats then
    let hash := JS.substr0 16 (SHA1.digest_hex buf) in
    if (JS.indexOf (syncFiles p) id =? -1)%Z
    then <[id := publicPath p +:+ hash +:+ ".wasm"]> copies
    else copies
  else copies.

(** [load(id)].  When both reads fail JavaScript reports the one that
    settles first; the model reports the [stat]. *)
Definition load (p : plugin) (fs : file_system) (id : string)
    (copies : gmap string string) : load_result * gmap string string :=
  if negb (JS.test_wasm id) then (LoadNull, copies)
  else
    match fsStatPromise fs id, fsReadFilePromise fs id with
    | IoOk stats, IoOk buf =>
        (LoadText (BinaryText.toString_binary buf),
         load_copies p stats buf id copies)
    | IoError e, _ => (LoadRejected e, copies)
    | _, IoError e => (LoadRejected e, copies)
    end.

Definition render (c : bootstrap_call) : string :=
  "export default function(imports){return _loadWasmModule("
    +:+ (if call_sync c then "1" else "0") +:+ ", "
    +:+ JS.show_opt (call_filepath c) +:+ ", "
    +:+ JS.show_opt (call_src c) +:+ ", imports)}".

Definition sync_conflict : string := "non-inlined files can not be `sync`.".

(** [transform(code, id)] *)
Definition transform (p : plugin) (copies : gmap string string)
    (code : jsstring) (id : string) : transform_result :=
  if JS.truthy_text code && JS.test_wasm id then
    let isSync := negb (JS.indexOf (syncFiles p) id =? -1)%Z in
    let filepath :=
      if JS.truthy_opt_string (copies !! id)
      then JS.quote <$> copies !! id else None in
    match filepath with
    | None =>
        let src := Base64.encode (BinaryText.Buffer_from_binary code) in
        TransformCode
          (render {| call_sync := isSync; call_filepath := None;
                     call_src := Some (JS.quote src) |})
    | Some _ =>
        if isSync then TransformError sync_conflict
        else TransformCode
               (render {| call_sync := isSync; call_filepath := filepath;
                          call_src := None |})
    end
  else TransformNull.

(** The registries a build can be in: empty at the start, changed only by
    [load]. *)
Inductive reachable (p : plugin) : gmap string string → Prop :=
  | reachable_init : reachable p copies_init
  | reachable_load fs id copies :
      reachable p copies → reachable p (load p fs id copies).2.

(** The invariant of the registry: every entry belongs to a [.wasm] path
    outside the sync set and holds a non-empty destination. *)
Definition registry_ok (p : plugin) (copies : gmap string string) : Prop :=
  ∀ id d, copies !! id = Some d →
    (id ∉ syncFiles p) ∧ JS.test_wasm id = true ∧ JS.truthy_string d = true.

(** An asset run through both hooks, as the bundler does: the text that
    [load] returns is what [transform] receives, and a rejected [load]
    fails the build with the I/O error. *)
Definition build_asset (p : plugin) (fs : file_system) (id : string)
    (copies : gmap string string) : build_result * gmap string string :=
  match load p fs id copies with
  | (LoadText code, copies') =>
      (match transform p copies' code id with
       | TransformCode c => Emitted c
       | TransformError m => Failed m
       | TransformNull => Untouched
       end, copies')
  | (LoadRejected e, copies') => (Failed e, copies')
  | (LoadNull, copies') => (Untouched, copies')
  end.

End Plugin.

(** ** The runtime bootstrap [_loadWasmModule] (the plugin's [banner]) *)

Module Bootstrap.

(** [process], [process.versions], [process.versions.node] *)
Record versions_object := { node : option string }.
Record process_object := { versions : option versions_object }.

(** The globals of the environment the bundle runs in.  The base64 readers
    answer [None] when they throw. *)
Record environment := {
  process : option process_object;
  __dirname : string;
  path_resolve2 : string → string → string;
  fs_readFile : string → io_result buffer;
  Buffer_from_base64 : option string → option buffer;
  atob : option string → option jsstring;
}.

Section WithImports.
(** The import object the caller supplies is opaque to the bootstrap. *)
Context {Imports : Type}.

(** What a WebAssembly entry point is given to work on: a buffer,
    [undefined] (the callback's buffer after a failed read) or the response
    promised by [fetch(url)]. *)
Inductive source :=
  | SrcBuffer (buf : buffer)
  | SrcUndefined
  | SrcFetch (url : string).

(** The asynchronous entry points, applied; each stands for the promise the
    call returns. *)
Inductive wasm_call :=
  | WebAssembly_instantiate (s : source) (imports : Imports)
  | WebAssembly_instantiateStreaming (s : source) (imports : Imports)
  | WebAssembly_compile (s : source)
  | WebAssembly_compileStreaming (s : source).

(** A promise made with [new Promise]: settled at most once, so that a
    [resolve] or [reject] after the first changes nothing. *)
Inductive promise :=
  | Pending
  | ResolvedWith (c : wasm_call)
  | RejectedWith (e : string).

Definition resolve (c : wasm_call) (p : promise) : promise :=
  match p with Pending => ResolvedWith c | _ => p end.

Definition reject (e : string) (p : promise) : promise :=
  match p with Pending => RejectedWith e | _ => p end.

(** What [_loadWasmModule] hands back:
    - [RetPromise p], the promise made around [fs.readFile], in the state
      [p] in which the callback leaves it;
    - [RetCall c], the promise of an asynchronous entry point;
    - [RetModule buf], the value [new WebAssembly.Module(buf)];
    - [RetInstance buf i], the value
      [new WebAssembly.Instance(new WebAssembly.Module(buf), i)];
    - [Thrown], when reading the base64 payload throws;
    - [ModuleThrows buf], when [new WebAssembly.Module(buf)] throws;
    - [InstanceThrows buf i], when the module is made and
      [new WebAssembly.Instance] throws on it and [i]. *)
Inductive returned :=
  | RetPromise (p : promise)
  | RetCall (c : wasm_call)
  | RetModule (buf : buffer)
  | RetInstance (buf : buffer) (imports : Imports)
  | Thrown
  | ModuleThrows (buf : buffer)
  | InstanceThrows (buf : buffer) (imports : Imports).

(** The engine behind the two constructors: whether
    [new WebAssembly.Module(buf)] returns, rather than throwing a
    [CompileError] on bytes that are no valid module, and whether
    [new WebAssembly.Instance(mod, imports)] returns for the module made of
    [buf], rather than throwing a [LinkError] or what the start function
    throws. *)
Record engine := {
  Module_compiles : buffer → bool;
  Instance_links : buffer → Imports → bool;
}.

Definition _instantiateOrCompile (s : source) (imports : option Imports)
    (stream : bool) : wasm_call :=
  let instantiateFunc :=
    if stream then WebAssembly_instantiateStreaming
    else WebAssembly_instantiate in
  let compileFunc :=
    if stream then WebAssembly_compileStreaming else WebAssembly_compile in
  match imports with
  | Some i => instantiateFunc s i
  | None => compileFunc s
  end.

Definition isNode (env : environment) : bool :=
  match process env with
  | Some p =>
      match versions p with
      | Some v => bool_decide (is_Some (node v))
      | None => false
      end
  | None => false
  end.

(** The arguments [(error, buffer)] of the [fs.readFile] callback. *)
Definition callback_args (r : io_result buffer)
    : option string * source :=
  match r with
  | IoOk buf => (None, SrcBuffer buf)
  | IoError e => (Some e, SrcUndefined)
  end.

(** The callback: [reject] on error, then [resolve] in either case. *)
Definition readFile_callback (imports : option Imports)
    (error : option string) (buf : source) (p : promise) : promise :=
  let p := match error with Some e => reject e p | None => p end in
  resolve (_instantiateOrCompile buf imports false) p.

(** [raw.charCodeAt(i)], for an index within the string. *)
Definition charCodeAt (raw : jsstring) (i : nat) : N :=
  default 0%N (raw !! i).

(** [for (var i = 0; i < rawLength; i++) buf[i] = raw.charCodeAt(i)],
    with [n] the iterations left; a [Uint8Array] keeps the low byte. *)
Fixpoint fill (raw : jsstring) (n i : nat) (buf : buffer) : buffer :=
  match n with
  | O => buf
  | S n' =>
      fill raw n' (S i) (<[i := BinaryText.low_byte (charCodeAt raw i)]> buf)
  end.

Definition decode_src (env : environment) (src : option string)
    : option buffer :=
  if isNode env then Buffer_from_base64 env src
  else
    raw ← atob env src;
    let rawLength := length raw in
    Some (fill raw rawLength 0 (replicate rawLength x00)).

(** [path.resolve(__dirname, filepath)], for a [filepath] that is a
    string. *)
Definition bundle_file (env : environment) (filepath : option string)
    : string :=
  path_resolve2 env (__dirname env) (JS.show_opt filepath).

Definition _loadWasmModule (wa : engine) (env : environment) (sync : bool)
    (filepath : option string) (src : option string)
    (imports : option Imports) : returned :=
  if JS.truthy_opt_string filepath && isNode env then
    let '(error, buf) :=
      callback_args (fs_readFile env (bundle_file env filepath)) in
    RetPromise (readFile_callback imports error buf Pending)
  else if JS.truthy_opt_string filepath then
    RetCall
      (_instantiateOrCompile (SrcFetch (JS.show_opt filepath)) imports true)
  else
    match decode_src env src with
    | None => Thrown
    | Some buf =>
        if sync then
          if Module_compiles wa buf then
            match imports with
            | Some i =>
                if Instance_links wa buf i then RetInstance buf i
                else InstanceThrows buf i
            | None => RetModule buf
            end
          else ModuleThrows buf
        else RetCall (_instantiateOrCompile (SrcBuffer buf) imports false)
    end.

Definition is_promise (r : returned) : bool :=
  match r with
  | RetPromise _ | RetCall _ => true
  | RetModule _ | RetInstance _ _ => false
  | Thrown | ModuleThrows _ | InstanceThrows _ _ => false
  end.

(** Whether a result binds an instance or only compiles. *)
Inductive flavour := Instantiates | Compiles.

Definition call_flavour (c : wasm_call) : flavour :=
  match c with
  | WebAssembly_instantiate _ _ | WebAssembly_instantiateStreaming _ _ =>
      Instantiates
  | WebAssembly_compile _ | WebAssembly_compileStreaming _ => Compiles
  end.

Definition call_streams (c : wasm_call) : bool :=
  match c with
  | WebAssembly_instantiateStreaming _ _ | WebAssembly_compileStreaming _ =>
      true
  | WebAssembly_instantiate _ _ | WebAssembly_compile _ => false
  end.

Definition returned_flavour (r : returned) : option flavour :=
  match r with
  | RetPromise (ResolvedWith c) | RetCall c => Some (call_flavour c)
  | RetInstance _ _ => Some Instantiates
  | RetModule _ => Some Compiles
  | RetPromise _ | Thrown | ModuleThrows _ | InstanceThrows _ _ => None
  end.

Definition expected_flavour (imports : option Imports) : flavour :=
  match imports with Some _ => Instantiates | None => Compiles end.

End WithImports.

Arguments source : clear implicits.
Arguments wasm_call : clear implicits.
Arguments promise : clear implicits.
Arguments returned : clear implicits.
Arguments engine : clear implicits.

End Bootstrap.

(** ** The finalize step [generateBundle] and [copy] *)

(** [path.join] and [path.dirname], Node's like [path.resolve]. *)
Class NodePath := {
  path_join : string → string → string;
  path_dirname : string → string;
}.

Module Finalize.

(** The two fields of the output options that the hook reads. *)
Record OutputOptions := {
  dir : option string;
  file : option string;
}.

(** What the disk answers while the bundle is written: the outcome of each
    [makeDir], and the ['error'] event, if any, of the read stream opened on
    a source and of the write stream opened on a destination. *)
Record disk_events := {
  makeDir : string → io_result unit;
  read_error : string → option string;
  write_error : string → option string;
}.

(** [copy(src, dest)]: rejected by an ['error'] of either stream, resolved by
    the ['finish'] of the write stream, which a read error keeps from
    coming.  When both streams fail the model reports the read. *)
Definition copy (ev : disk_events) (src dest : string) : io_result unit :=
  match read_error ev src, write_error ev dest with
  | Some e, _ => IoError e
  | None, Some e => IoError e
  | None, None => IoOk ()
  end.

(** What one run of the hook did: how its promise settled, and the calls of
    [makeDir] and of [copy] that it made. *)
Record bundle_run := {
  run_outcome : io_result unit;
  run_dirs : list string;
  run_copies : list (string * string);
}.

(** [Promise.all]: fulfilled when every member is; the model reports the
    first failure in the order of the list. *)
Fixpoint promise_all (rs : list (io_result unit)) : io_result unit :=
  match rs with
  | [] => IoOk ()
  | IoOk _ :: rest => promise_all rest
  | IoError e :: _ => IoError e
  end.

Section WithPath.
Context `{NodePath}.

(** [outputOptions.dir || path.dirname(outputOptions.file)] *)
Definition output_base (o : OutputOptions) : string :=
  if JS.truthy_opt_string (dir o) then JS.show_opt (dir o)
  else path_dirname (JS.show_opt (file o)).

(** [!outputOptions.dir && !outputOptions.file] *)
Definition no_base (o : OutputOptions) : bool :=
  negb (JS.truthy_opt_string (dir o)) && negb (JS.truthy_opt_string (file o)).

(** The callback mapped over [Object.keys(copies)], for the entry
    [name ↦ output]. *)
Definition copy_entry (ev : disk_events) (base : string)
    (entry : string * string) : bundle_run :=
  let name := entry.1 in
  let output := entry.2 in
  let outputDirectory := path_join base (path_dirname output) in
  match makeDir ev outputDirectory with
  | IoError e =>
      {| run_outcome := IoError e; run_dirs := [outputDirectory];
         run_copies := [] |}
  | IoOk _ =>
      {| run_outcome := copy ev name (path_join base output);
         run_dirs := [outputDirectory];
         run_copies := [(name, path_join base output)] |}
  end.

(** [generateBundle(outputOptions)].  The entries are taken in the order in
    which the map lists them; they run concurrently, and nothing below
    depends on the order. *)
Definition generateBundle (ev : disk_events) (copies : gmap string string)
    (outputOptions : OutputOptions) : bundle_run :=
  if no_base outputOptions then
    {| run_outcome := IoOk (); run_dirs := []; run_copies := [] |}
  else
    let base := output_base outputOptions in
    match makeDir ev base with
    | IoError e =>
        {| run_outcome := IoError e; run_dirs := [base]; run_copies := [] |}
    | IoOk _ =>
        let runs := copy_entry ev base <$> map_to_list copies in
        {| run_outcome := promise_all (run_outcome <$> runs);
           run_dirs := base :: concat (run_dirs <$> runs);
           run_copies := concat (run_copies <$> runs) |}
    end.

End WithPath.

(** The same disk with streams that never fail. *)
Definition quiet_streams (ev : disk_events) : disk_events :=
  {| makeDir := makeDir ev; read_error := λ _, None;
     write_error := λ _, None |}.

End Finalize.

(** ** Further vocabulary for the properties of the hooks *)

(** A lower-case hexadecimal digit. *)
Definition is_lower_hex (c : ascii) : bool :=
  let n := N_of_ascii c in
  ((48 <=? n)%N && (n <=? 57)%N) || ((97 <=? n)%N && (n <=? 102)%N).

Fixpoint string_forall (f : ascii → bool) (s : string) : bool :=
  match s with
  | "" => true
  | String c rest => f c && string_forall f rest
  end.

(** The call that a settled result carries, if it carries one. *)
Definition returned_call {Imports : Type}
    (r : Bootstrap.returned Imports) : option (Bootstrap.wasm_call Imports) :=
  match r with
  | Bootstrap.RetPromise (Bootstrap.ResolvedWith c) | Bootstrap.RetCall c =>
      Some c
  | _ => None
  end.

(** ** A reference host and a small project, for worked examples *)

Module Posix.

(** The segments of a path between its slashes. *)
Fixpoint segments (s : string) : list string :=
  match s with
  | "" => [""]
  | String c rest =>
      if Ascii.eqb c "/" then "" :: segments rest
      else match segments rest with
           | seg :: more => String c seg :: more
           | [] => [String c ""]
           end
  end.

(** One segment against the stack of the segments kept so far. *)
Definition step (stack : list string) (seg : string) : list string :=
  if String.eqb seg "" || String.eqb seg "." then stack
  else if String.eqb seg ".." then tail stack
  else seg :: stack.

Definition join (segs : list string) : string :=
  match segs with
  | [] => "/"
  | _ => foldr (λ seg acc, "/" +:+ seg +:+ acc) "" segs
  end.

(** [path.resolve(x)] on a POSIX machine whose working directory is [cwd]. *)
Definition resolve (cwd x : string) : string :=
  let full := if String.prefix "/" x then x else cwd +:+ "/" +:+ x in
  join (rev (fold_left step (segments full) [])).

End Posix.

Module Demo.

#[export] Instance host : NodeHost :=
  {| path_resolve := Posix.resolve "/project" |}.

(** The eight bytes every WebAssembly binary starts with. *)
Definition header : buffer :=
  [x00; "a"%byte; "s"%byte; "m"%byte; x01; x00; x00; x00].

(** A disk on which every path holds the file [buf]. *)
Definition disk_of (buf : buffer) : file_system :=
  {| fsStatPromise := λ _, IoOk {| size := Z.of_nat (length buf) |};
     fsReadFilePromise := λ _, IoOk buf |}.

Definition disk : file_system := disk_of header.

(** The first four bytes of [header], and the first five. *)
Definition magic : buffer := take 4 header.
Definition magic_v : buffer := take 5 header.

(** [wasm({ sync: ['c.wasm'], maxFileSize: 4 })] *)
Definition sync_small_limit : RollupWasmOptions :=
  {| opt_sync := Some ["c.wasm"]; opt_limit := None;
     opt_publicPath := None; opt_maxFileSize := Some 4%Z |}.

(** [wasm({ maxFileSize: 4, publicPath: '/assets/' })] *)
Definition small_limit : RollupWasmOptions :=
  {| opt_sync := None; opt_limit := None;
     opt_publicPath := Some "/assets/"; opt_maxFileSize := Some 4%Z |}.

(** [wasm({ sync: ['c.wasm'], maxFileSize: 0 })] *)
Definition always_copy : RollupWasmOptions :=
  {| opt_sync := Some ["c.wasm"]; opt_limit := None;
     opt_publicPath := None; opt_maxFileSize := Some 0%Z |}.

(** A disk whose files are all empty. *)
Definition empty_disk : file_system := disk_of [].

(** Node, with a bundle in [/dist] next to the copied file. *)
Definition node_env : Bootstrap.environment :=
  {| Bootstrap.process :=
       Some {| Bootstrap.versions :=
                 Some {| Bootstrap.node := Some "20.0.0" |} |};
     Bootstrap.__dirname := "/dist";
     Bootstrap.path_resolve2 := λ dir x, Posix.resolve dir x;
     Bootstrap.fs_readFile := λ f,
       if String.eqb f "/dist/c6006650182737e2.wasm" then IoOk header
       else IoError "ENOENT";
     Bootstrap.Buffer_from_base64 := λ src, src ≫= Base64.decode;
     Bootstrap.atob := λ _, None |}.

(** Whether [buf] begins with the bytes [pre]. *)
Fixpoint begins_with (pre buf : buffer) : bool :=
  match pre, buf with
  | [], _ => true
  | _ :: _, [] => false
  | a :: pre', b :: buf' => Byte.eqb a b && begins_with pre' buf'
  end.

(** An engine that refuses, as every engine does, bytes that do not begin
    with [header]; it takes what begins with it, as every engine takes
    [header] itself, the module with nothing in it, and links whatever
    imports it is given, as that module does. *)
Definition header_engine : Bootstrap.engine unit :=
  {| Bootstrap.Module_compiles := begins_with header;
     Bootstrap.Instance_links := λ _ _, true |}.

(** A browser: no [process], [atob] in its place. *)
Definition browser_env : Bootstrap.environment :=
  {| Bootstrap.process := None;
     Bootstrap.__dirname := "";
     Bootstrap.path_resolve2 := λ dir x, Posix.resolve dir x;
     Bootstrap.fs_readFile := λ _, IoError "ENOENT";
     Bootstrap.Buffer_from_base64 := λ _, None;
     Bootstrap.atob := λ src,
       BinaryText.toString_binary <$> (src ≫= Base64.decode) |}.

End Demo.

Module PosixPaths.

(** The segments joined back with slashes between them. *)
Fixpoint unsegments (segs : list string) : string :=
  match segs with
  | [] => ""
  | [seg] => seg
  | seg :: more => seg +:+ "/" +:+ unsegments more
  end.

(** [path.dirname(x)] on a POSIX machine, for a path without a trailing
    slash. *)
Definition dirname (x : string) : string :=
  match removelast (Posix.segments x) with
  | [] => "."
  | init => if String.eqb (unsegments init) "" then "/" else unsegments init
  end.

(** [path.join(a, b)] on a POSIX machine, for an absolute [a]. *)
Definition join (a b : string) : string :=
  Posix.resolve "/" (a +:+ "/" +:+ b).

End PosixPaths.

Module DemoOutput.

#[export] Instance paths : NodePath :=
  {| path_join := PosixPaths.join; path_dirname := PosixPaths.dirname |}.

(** [{ dir: '/dist' }] and [{ file: '/out/bundle.js' }] *)
Definition to_dir : Finalize.OutputOptions :=
  {| Finalize.dir := Some "/dist"; Finalize.file := None |}.
Definition to_file : Finalize.OutputOptions :=
  {| Finalize.dir := None; Finalize.file := Some "/out/bundle.js" |}.

(** A disk on which everything succeeds. *)
Definition fine : Finalize.disk_events :=
  {| Finalize.makeDir := λ _, IoOk ();
     Finalize.read_error := λ _, None;
     Finalize.write_error := λ _, None |}.

(** A disk on which [/project/b.wasm] has gone missing. *)
Definition b_missing : Finalize.disk_events :=
  {| Finalize.makeDir := λ _, IoOk ();
     Finalize.read_error := λ f,
       if String.eqb f "/project/b.wasm" then Some "ENOENT" else None;
     Finalize.write_error := λ _, None |}.

(** The registry after [b.wasm] and [d.wasm], each over the limit, have
    been loaded with [publicPath: '/assets/']. *)
Definition two_copies : gmap string string :=
  (load (wasm (H := Demo.host) Demo.small_limit) (Demo.disk_of Demo.magic_v)
     "/project/d.wasm"
     (load (wasm (H := Demo.host) Demo.small_limit) Demo.disk
        "/project/b.wasm" copies_init).2).2.

End DemoOutput.

(** * Properties *)

(** ** Worked values *)

Example base64_Man : Base64.encode ["M"%byte; "a"%byte; "n"%byte] = "TWFu".
Proof. reflexivity. Qed.

Example base64_header : Base64.encode Demo.header = "AGFzbQEAAAA=".
Proof. reflexivity. Qed.

Example base64_decode_header :
  Base64.decode "AGFzbQEAAAA=" = Some Demo.header.
Proof. reflexivity. Qed.

Example sha1_empty :
  SHA1.digest_hex [] = "da39a3ee5e6b4b0d3255bfef95601890afd80709".
Proof. vm_compute. reflexivity. Qed.

Example sha1_abc :
  SHA1.digest_hex ["a"%byte; "b"%byte; "c"%byte]
  = "a9993e364706816aba3e25717850c26c9cd0d89d".
Proof. vm_compute. reflexivity. Qed.

Example resolve_relative :
  Posix.resolve "/project" "./pkg/../c.wasm" = "/project/c.wasm".
Proof. reflexivity. Qed.

(** ** The binary text and base64 round trips *)

Lemma low_byte_to_N b : BinaryText.low_byte (Byte.to_N b) = b.
Proof. destruct b; reflexivity. Qed.

Lemma lt64_cases (P : N → Prop) :
  (∀ k : nat, (k < 64)%nat → P (N.of_nat k)) → ∀ n, (n < 64)%N → P n.
Proof.
  intros HP n Hn. rewrite <- (N2Nat.id n). apply HP. lia.
Qed.

Lemma value_digit n : (n < 64)%N → Base64.value (Base64.digit n) = Some n.
Proof.
  revert n. apply lt64_cases. intros k Hk.
  do 64 (destruct k as [|k]; [reflexivity|]). lia.
Qed.

Lemma digit_not_pad n : (n < 64)%N → Ascii.eqb (Base64.digit n) Base64.pad = false.
Proof.
  revert n. apply lt64_cases. intros k Hk.
  do 64 (destruct k as [|k]; [reflexivity|]). lia.
Qed.

Lemma to_N_lt b : (Byte.to_N b < 256)%N.
Proof. pose proof (Byte.to_N_bounded b). lia. Qed.


Ltac euclid := zify; Z.to_euclidean_division_equations; lia.

Lemma byte1_ok a b : (a < 256)%N → (b < 256)%N →
  Base64.byte1 (a / 4) ((a mod 4) * 16 + b / 16) = Byte.of_N a.
Proof. intros. unfold Base64.byte1. f_equal. euclid. Qed.

Lemma byte2_ok a b c : (a < 256)%N → (b < 256)%N → (c < 256)%N →
  Base64.byte2 ((a mod 4) * 16 + b / 16) ((b mod 16) * 4 + c / 64)
  = Byte.of_N b.
Proof. intros. unfold Base64.byte2. f_equal. euclid. Qed.

Lemma byte3_ok b c : (b < 256)%N → (c < 256)%N →
  Base64.byte3 ((b mod 16) * 4 + c / 64) (c mod 64) = Byte.of_N c.
Proof. intros. unfold Base64.byte3. f_equal. euclid. Qed.

Lemma sextets_lt a b c : (a < 256)%N → (b < 256)%N → (c < 256)%N →
  (a / 4 < 64 ∧ (a mod 4) * 16 + b / 16 < 64
   ∧ (b mod 16) * 4 + c / 64 < 64 ∧ c mod 64 < 64)%N.
Proof. intros. repeat split; euclid. Qed.

Lemma append_String c s r : String c s +:+ r = String c (s +:+ r).
Proof. reflexivity. Qed.

Lemma append_empty r : "" +:+ r = r.
Proof. reflexivity. Qed.

Lemma decode_group3 a b c rest :
  Base64.decode
    (Base64.group3 (Byte.to_N a) (Byte.to_N b) (Byte.to_N c) +:+ rest)
  = tl ← Base64.decode rest; Some (a :: b :: c :: tl).
Proof.
  pose proof (to_N_lt a) as Ha. pose proof (to_N_lt b) as Hb.
  pose proof (to_N_lt c) as Hc.
  destruct (sextets_lt _ _ _ Ha Hb Hc) as (H1 & H2 & H3 & H4).
  unfold Base64.group3. rewrite !append_String, append_empty.
  cbn [Base64.decode].
  rewrite !value_digit by assumption. cbn [mbind option_bind].
  rewrite byte1_ok, byte2_ok, byte3_ok, !Byte.of_to_N by assumption.
  cbn [mbind option_bind].
  rewrite (digit_not_pad _ H4). reflexivity.
Qed.

Lemma decode_group2 a b :
  Base64.decode (Base64.group2 (Byte.to_N a) (Byte.to_N b)) = Some [a; b].
Proof.
  pose proof (to_N_lt a) as Ha. pose proof (to_N_lt b) as Hb.
  assert (0 < 256)%N as H0 by lia.
  destruct (sextets_lt _ _ _ Ha Hb H0) as (H1 & H2 & H3 & _).
  replace (0 / 64)%N with 0%N in H3 by reflexivity. rewrite N.add_0_r in H3.
  pose proof (byte2_ok _ _ _ Ha Hb H0) as E2.
  replace (0 / 64)%N with 0%N in E2 by reflexivity. rewrite N.add_0_r in E2.
  unfold Base64.group2. cbn [Base64.decode].
  rewrite !value_digit by assumption. cbn [mbind option_bind].
  rewrite byte1_ok, E2, !Byte.of_to_N by assumption.
  cbn [mbind option_bind].
  rewrite (digit_not_pad _ H3). reflexivity.
Qed.

Lemma decode_group1 a :
  Base64.decode (Base64.group1 (Byte.to_N a)) = Some [a].
Proof.
  pose proof (to_N_lt a) as Ha.
  assert (0 < 256)%N as H0 by lia.
  destruct (sextets_lt _ _ _ Ha H0 H0) as (H1 & H2 & _).
  replace (0 / 16)%N with 0%N in H2 by reflexivity. rewrite N.add_0_r in H2.
  pose proof (byte1_ok _ _ Ha H0) as E1.
  replace (0 / 16)%N with 0%N in E1 by reflexivity. rewrite N.add_0_r in E1.
  unfold Base64.group1. cbn [Base64.decode].
  rewrite !value_digit by assumption. cbn [mbind option_bind].
  rewrite E1, !Byte.of_to_N. reflexivity.
Qed.

(** Induction on a buffer three bytes at a time. *)
Lemma buffer_ind3 (P : buffer → Prop) :
  P [] → (∀ a, P [a]) → (∀ a b, P [a; b]) →
  (∀ a b c rest, P rest → P (a :: b :: c :: rest)) →
  ∀ l, P l.
Proof.
  intros H0 H1 H2 H3.
  fix IH 1. intros [|a [|b [|c rest]]].
  - exact H0.
  - apply H1.
  - apply H2.
  - apply H3, IH.
Qed.

Lemma base64_decode_encode (b : buffer) :
  Base64.decode (Base64.encode b) = Some b.
Proof.
  induction b as [| a | a b | a b c rest IH] using buffer_ind3.
  - reflexivity.
  - apply decode_group1.
  - apply decode_group2.
  - change (Base64.encode (a :: b :: c :: rest))
      with (Base64.group3 (Byte.to_N a) (Byte.to_N b) (Byte.to_N c)
              +:+ Base64.encode rest).
    rewrite decode_group3, IH. reflexivity.
Qed.

Lemma binary_roundtrip (P : buffer) :
  BinaryText.Buffer_from_binary (BinaryText.toString_binary P) = P.
Proof.
  unfold BinaryText.Buffer_from_binary, BinaryText.toString_binary.
  induction P as [|b P IH]; [reflexivity|].
  cbn [map]. rewrite low_byte_to_N. f_equal. exact IH.
Qed.

(** *** JavaScript primitives *)

Lemma indexOf_lower (l : list string) x : (-1 ≤ JS.indexOf l x)%Z.
Proof.
  induction l as [|y l IH]; cbn [JS.indexOf]; [lia|].
  destruct (String.eqb y x); [lia|].
  destruct (Z.eqb_spec (JS.indexOf l x) (-1)); lia.
Qed.

Lemma indexOf_absent (l : list string) x : JS.indexOf l x = (-1)%Z ↔ x ∉ l.
Proof.
  induction l as [|y l IH]; cbn [JS.indexOf].
  - split; [intros _; apply not_elem_of_nil | reflexivity].
  - pose proof (indexOf_lower l x) as Hlow.
    rewrite not_elem_of_cons.
    destruct (String.eqb_spec y x) as [->|Hne].
    + split; [lia | intros [Hx _]; congruence].
    + destruct (Z.eqb_spec (JS.indexOf l x) (-1)) as [E|E].
      * split; [intros _; split; [congruence | by apply IH] | reflexivity].
      * split; [lia | intros [_ Hx]; apply IH in Hx; contradiction].
Qed.

Lemma indexOf_test (l : list string) x :
  (JS.indexOf l x =? -1)%Z = bool_decide (x ∉ l).
Proof.
  destruct (Z.eqb_spec (JS.indexOf l x) (-1)) as [E|E];
    symmetry; [apply bool_decide_eq_true | apply bool_decide_eq_false];
    by rewrite <- indexOf_absent.
Qed.

Lemma test_wasm_suffix id :
  JS.test_wasm id = true ↔ ∃ stem, id = stem +:+ ".wasm".
Proof.
  induction id as [|c id IH].
  - split; [discriminate|]. intros [[|? ?] E]; discriminate.
  - cbn [JS.test_wasm]. rewrite orb_true_iff, IH. split.
    + intros [E | [stem ->]].
      * apply String.eqb_eq in E. exists "". by rewrite E.
      * exists (String c stem). reflexivity.
    + intros [[|c' stem] E].
      * left. apply String.eqb_eq. exact E.
      * right. exists stem. rewrite append_String in E. congruence.
Qed.

Lemma append_truthy s t :
  JS.truthy_string t = true → JS.truthy_string (s +:+ t) = true.
Proof.
  unfold JS.truthy_string. destruct t as [|c t]; [discriminate|]. intros _.
  destruct s; reflexivity.
Qed.

Lemma truthy_text_iff (code : jsstring) : JS.truthy_text code = true ↔ code ≠ [].
Proof. destruct code; cbn; split; congruence. Qed.

Lemma toString_binary_truthy (b : buffer) :
  JS.truthy_text (BinaryText.toString_binary b) = true ↔ b ≠ [].
Proof. destruct b; cbn; split; congruence. Qed.

Section PluginFacts.
Context `{NodeHost}.

Lemma destination_truthy p buf : JS.truthy_string (destination p buf) = true.
Proof. unfold destination. by do 2 apply append_truthy. Qed.

(** What [load] does to the registry, by cases on the classification. *)
Lemma load_copies_cases p stats buf id (copies : gmap string string) :
  load_copies p stats buf id copies =
    if over_limit p stats && bool_decide (id ∉ syncFiles p)
    then <[id := destination p buf]> copies else copies.
Proof.
  unfold load_copies. rewrite indexOf_test.
  destruct (over_limit p stats), (bool_decide (id ∉ syncFiles p)); reflexivity.
Qed.

Lemma load_registry p fs id (copies : gmap string string) :
  (load p fs id copies).2 =
    (match JS.test_wasm id, fsStatPromise fs id, fsReadFilePromise fs id with
     | true, IoOk stats, IoOk buf => load_copies p stats buf id copies
     | _, _, _ => copies
     end).
Proof.
  unfold load. destruct (JS.test_wasm id); [|reflexivity]. cbn [negb].
  destruct (fsStatPromise fs id), (fsReadFilePromise fs id); reflexivity.
Qed.

Lemma registry_ok_load p fs id copies :
  registry_ok p copies → registry_ok p (load p fs id copies).2.
Proof.
  intros Hok. rewrite load_registry.
  destruct (JS.test_wasm id) eqn:Ewasm; [|exact Hok].
  destruct (fsStatPromise fs id) as [stats|]; [|exact Hok].
  destruct (fsReadFilePromise fs id) as [buf|]; [|exact Hok].
  rewrite load_copies_cases.
  destruct (over_limit p stats); [|exact Hok]. cbn [andb].
  case_bool_decide as Hsync; [|exact Hok].
  intros id' d. rewrite lookup_insert. case_decide as Eid.
  - subst id'. intros [= <-]. auto using destination_truthy.
  - apply Hok.
Qed.

Lemma reachable_ok p copies : reachable p copies → registry_ok p copies.
Proof.
  induction 1 as [|fs id copies _ IH].
  - intros id d. unfold copies_init. by rewrite lookup_empty.
  - by apply registry_ok_load.
Qed.

Lemma reachable_sync_absent p copies id :
  reachable p copies → id ∈ syncFiles p → copies !! id = None.
Proof.
  intros Hr Hsync. destruct (copies !! id) as [d|] eqn:E; [|reflexivity].
  by destruct (reachable_ok _ _ Hr _ _ E) as [Hn _].
Qed.

(** [transform] by cases, for a text that is not empty and a [.wasm] path. *)
Lemma transform_inline p (copies : gmap string string) code id :
  code ≠ [] → JS.test_wasm id = true → copies !! id = None →
  transform p copies code id =
    TransformCode
      (render {| call_sync := bool_decide (id ∈ syncFiles p);
                 call_filepath := None;
                 call_src := Some (JS.quote (Base64.encode
                               (BinaryText.Buffer_from_binary code))) |}).
Proof.
  intros Hcode Hwasm Hnone. unfold transform.
  apply truthy_text_iff in Hcode. rewrite Hcode, Hwasm, Hnone. cbn.
  rewrite indexOf_test. do 3 f_equal.
  by destruct (decide (id ∈ syncFiles p));
    [rewrite bool_decide_eq_false_2, bool_decide_eq_true_2
    |rewrite bool_decide_eq_true_2, bool_decide_eq_false_2]; auto.
Qed.

Lemma transform_copied p (copies : gmap string string) code id d :
  code ≠ [] → JS.test_wasm id = true → copies !! id = Some d →
  JS.truthy_string d = true → id ∉ syncFiles p →
  transform p copies code id =
    TransformCode
      (render {| call_sync := false;
                 call_filepath := Some (JS.quote d);
                 call_src := None |}).
Proof.
  intros Hcode Hwasm Hsome Hd Hsync. unfold transform.
  apply truthy_text_iff in Hcode. rewrite Hcode, Hwasm, Hsome. cbn.
  rewrite Hd, indexOf_test, bool_decide_eq_true_2 by done. reflexivity.
Qed.

End PluginFacts.

(** ** The bootstrap *)

Module BootstrapFacts.
Import Bootstrap.

Lemma fill_spec (raw : jsstring) n i (buf : buffer) :
  (i + n)%nat = length raw → length buf = length raw →
  fill raw n i buf = (take i buf ++ map BinaryText.low_byte (drop i raw))%list.
Proof.
  revert i buf. induction n as [|n IH]; intros i buf Hi Hlen; cbn [fill].
  - rewrite take_ge, drop_ge by lia. by rewrite app_nil_r.
  - destruct (lookup_lt_is_Some_2 raw i) as [c Hc]; [lia|].
    rewrite IH by (rewrite ?length_insert; lia).
    rewrite (drop_S raw c i Hc). cbn [map].
    unfold charCodeAt. rewrite Hc. cbn [default].
    erewrite take_S_r by (apply list_lookup_insert_eq; lia).
    rewrite take_insert_ge by lia. by rewrite <- app_assoc.
Qed.

Lemma fill_all (raw : jsstring) :
  fill raw (length raw) 0 (replicate (length raw) x00)
  = BinaryText.Buffer_from_binary raw.
Proof.
  rewrite fill_spec by (rewrite ?length_replicate; lia). reflexivity.
Qed.

Lemma decode_src_node env src :
  isNode env = true → decode_src env src = Buffer_from_base64 env src.
Proof. unfold decode_src. by intros ->. Qed.

Lemma decode_src_browser env src :
  isNode env = false →
  decode_src env src = BinaryText.Buffer_from_binary <$> atob env src.
Proof.
  unfold decode_src. intros ->. destruct (atob env src) as [raw|]; [|reflexivity].
  cbn. by rewrite fill_all.
Qed.

Section WithImports.
Context {Imports : Type}.
Implicit Types (imports : option Imports).

Lemma instantiateOrCompile_flavour s imports stream :
  call_flavour (_instantiateOrCompile s imports stream)
  = expected_flavour imports.
Proof. by destruct imports, stream. Qed.

Lemma instantiateOrCompile_streams s imports stream :
  call_streams (_instantiateOrCompile s imports stream) = stream.
Proof. by destruct imports, stream. Qed.

Lemma resolve_after_reject e c : resolve c (reject e (@Pending Imports)) = RejectedWith e.
Proof. reflexivity. Qed.

End WithImports.
End BootstrapFacts.

(** ** The plugin: classification and emitted modules *)

Section PluginClaims.
Context `{NodeHost}.

Lemma transform_error_iff p (copies : gmap string string) code id m :
  transform p copies code id = TransformError m ↔
    m = sync_conflict ∧ code ≠ [] ∧ JS.test_wasm id = true
    ∧ JS.truthy_opt_string (copies !! id) = true ∧ id ∈ syncFiles p.
Proof.
  unfold transform. rewrite indexOf_test, <- truthy_text_iff.
  destruct (JS.truthy_text code), (JS.test_wasm id); cbn [andb];
    try (split; [discriminate | intros (_ & ? & ? & _); discriminate]).
  destruct (JS.truthy_opt_string (copies !! id)) eqn:Et.
  - destruct (copies !! id) as [d|]; [|discriminate]. cbn [fmap option_fmap option_map].
    case_bool_decide as Hs; cbn [negb].
    + split; [discriminate | intros (_ & _ & _ & _ & ?); contradiction].
    + split; [intros [= <-]|intros (-> & _); reflexivity].
      repeat split; done.
  - split; [discriminate | intros (_ & _ & _ & ? & _); discriminate].
Qed.

(** The build of an asset that [load] reads successfully. *)
Lemma build_asset_read p fs id copies stats buf :
  JS.test_wasm id = true →
  fsStatPromise fs id = IoOk stats → fsReadFilePromise fs id = IoOk buf →
  load p fs id copies
  = (LoadText (BinaryText.toString_binary buf),
     load_copies p stats buf id copies).
Proof. intros Hw Hs Hr. unfold load. by rewrite Hw, Hs, Hr. Qed.

Lemma build_asset_inline p fs id copies stats buf :
  JS.test_wasm id = true →
  fsStatPromise fs id = IoOk stats → fsReadFilePromise fs id = IoOk buf →
  buf ≠ [] → (load p fs id copies).2 !! id = None →
  build_asset p fs id copies
  = (Emitted (render {| call_sync := bool_decide (id ∈ syncFiles p);
                        call_filepath := None;
                        call_src := Some (JS.quote (Base64.encode buf)) |}),
     (load p fs id copies).2).
Proof.
  intros Hw Hs Hr Hbuf Hnone. unfold build_asset.
  rewrite (build_asset_read _ _ _ _ _ _ Hw Hs Hr) in Hnone |- *.
  cbn [snd] in Hnone |- *.
  rewrite transform_inline; [|by destruct buf|done..].
  by rewrite binary_roundtrip.
Qed.

Lemma load_sync_unchanged p fs id copies :
  id ∈ syncFiles p → (load p fs id copies).2 = copies.
Proof.
  intros Hsync. rewrite load_registry.
  destruct (JS.test_wasm id); [|reflexivity].
  destruct (fsStatPromise fs id) as [stats|]; [|reflexivity].
  destruct (fsReadFilePromise fs id) as [buf|]; [|reflexivity].
  rewrite load_copies_cases, (bool_decide_eq_false_2 (id ∉ syncFiles p)) by auto.
  by rewrite andb_false_r.
Qed.

Lemma sync_asset_inlined p fs id copies stats buf :
  reachable p copies → id ∈ syncFiles p → JS.test_wasm id = true →
  fsStatPromise fs id = IoOk stats → fsReadFilePromise fs id = IoOk buf →
  buf ≠ [] →
  build_asset p fs id copies
  = (Emitted (render {| call_sync := true; call_filepath := None;
                        call_src := Some (JS.quote (Base64.encode buf)) |}),
     copies)
  ∧ copies !! id = None.
Proof.
  intros Hreach Hsync Hw Hs Hr Hbuf.
  pose proof (reachable_sync_absent _ _ _ Hreach Hsync) as Hnone.
  pose proof (load_sync_unchanged p fs id copies Hsync) as Hsame.
  split; [|exact Hnone].
  rewrite (build_asset_inline _ _ _ _ _ _ Hw Hs Hr Hbuf) by (by rewrite Hsame).
  by rewrite Hsame, bool_decide_eq_true_2.
Qed.

(** C1, as amended.  An asset whose path is in the sync set and whose size
    exceeds a threshold that is not zero does not fail the build: [load]
    leaves the registry as it was, with no entry for the path, so the asset
    is never copied, and for a file that is not empty [transform] emits the
    inline module, with the sync flag [1] and the base64 of the file's
    bytes. *)
Theorem sync_over_limit_inlined p fs id copies stats buf :
  reachable p copies → id ∈ syncFiles p → JS.test_wasm id = true →
  fsStatPromise fs id = IoOk stats → fsReadFilePromise fs id = IoOk buf →
  maxFileSize p ≠ 0%Z → (size stats > maxFileSize p)%Z →
  (buf ≠ [] →
   build_asset p fs id copies
   = (Emitted (render {| call_sync := true; call_filepath := None;
                         call_src := Some (JS.quote (Base64.encode buf)) |}),
      copies))
  ∧ (load p fs id copies).2 = copies
  ∧ copies !! id = None
  ∧ (build_asset p fs id copies).1 ≠ Failed sync_conflict.
Proof.
  intros Hreach Hsync Hw Hs Hr _ _.
  pose proof (reachable_sync_absent _ _ _ Hreach Hsync) as Hnone.
  pose proof (load_sync_unchanged p fs id copies Hsync) as Hsame.
  split; [|split; [exact Hsame|split; [exact Hnone|]]].
  - intros Hbuf.
    by destruct (sync_asset_inlined _ _ _ _ _ _ Hreach Hsync Hw Hs Hr Hbuf).
  - destruct buf as [|b buf].
    + unfold build_asset.
      rewrite (build_asset_read _ _ _ _ _ _ Hw Hs Hr). cbn. discriminate.
    + destruct (sync_asset_inlined _ _ _ _ _ (b :: buf) Hreach Hsync Hw Hs Hr)
        as [E _]; [discriminate|].
      rewrite E. discriminate.
Qed.

(** C2.  The text that [load] makes of a payload decodes back to the
    payload, byte for byte; so the literal that [transform] emits for an
    inlined asset is the base64 of the file's bytes, from which base64
    decoding recovers them. *)
Theorem binary_text_round_trip (P : buffer) :
  BinaryText.Buffer_from_binary (BinaryText.toString_binary P) = P
  ∧ Base64.decode (Base64.encode P) = Some P
  ∧ ∀ p fs id copies stats,
      JS.test_wasm id = true →
      fsStatPromise fs id = IoOk stats → fsReadFilePromise fs id = IoOk P →
      P ≠ [] → (load p fs id copies).2 !! id = None →
      (load p fs id copies).1 = LoadText (BinaryText.toString_binary P)
      ∧ transform p (load p fs id copies).2 (BinaryText.toString_binary P) id
        = TransformCode
            (render {| call_sync := bool_decide (id ∈ syncFiles p);
                       call_filepath := None;
                       call_src := Some (JS.quote (Base64.encode P)) |}).
Proof.
  split; [apply binary_roundtrip|]. split; [apply base64_decode_encode|].
  intros p fs id copies stats Hw Hs Hr HP Hnone.
  rewrite (build_asset_read _ _ _ _ _ _ Hw Hs Hr) in Hnone |- *.
  cbn [fst snd] in Hnone |- *. split; [reflexivity|].
  rewrite transform_inline; [|by destruct P|done..].
  by rewrite binary_roundtrip.
Qed.

(** C3, as amended.  For a matched [.wasm] asset whose text is not empty,
    in any registry the load phase can produce, [transform] emits exactly
    one of two module bodies: with a destination in the registry (the asset
    is then not sync) the call [(0, 'destination', null, imports)]; with
    none, the call [(isSync, null, 'base64', imports)], the flag written
    [1] or [0] and the base64 taken from the re-decoded text.  For an empty
    text [transform] returns [null] and emits nothing. *)
Theorem transform_decision_table p copies code id :
  reachable p copies → JS.test_wasm id = true → code ≠ [] →
  (∀ d, copies !! id = Some d → id ∉ syncFiles p →
     transform p copies code id
     = TransformCode
         (render {| call_sync := false; call_filepath := Some (JS.quote d);
                    call_src := None |}))
  ∧ (copies !! id = None →
     transform p copies code id
     = TransformCode
         (render {| call_sync := bool_decide (id ∈ syncFiles p);
                    call_filepath := None;
                    call_src := Some (JS.quote (Base64.encode
                                  (BinaryText.Buffer_from_binary code))) |}))
  ∧ (is_Some (copies !! id) → id ∉ syncFiles p)
  ∧ transform p copies [] id = TransformNull.
Proof.
  intros Hreach Hw Hcode. pose proof (reachable_ok _ _ Hreach) as Hok.
  repeat split.
  - intros d Hd Hsync. destruct (Hok _ _ Hd) as (_ & _ & Ht).
    by apply transform_copied.
  - intros Hnone. by apply transform_inline.
  - intros [d Hd]. by destruct (Hok _ _ Hd).
Qed.




(** C5.  With [maxFileSize = 0] every matched asset outside the sync set is
    registered for copying, whatever its size; an asset in the sync set is
    never registered, whatever the threshold and its size. *)
Theorem zero_limit_copies_all_but_sync p :
  (maxFileSize p = 0%Z → ∀ fs id copies stats buf,
     JS.test_wasm id = true →
     fsStatPromise fs id = IoOk stats → fsReadFilePromise fs id = IoOk buf →
     id ∉ syncFiles p →
     (load p fs id copies).2 !! id = Some (destination p buf))
  ∧ (∀ fs id copies, id ∈ syncFiles p → (load p fs id copies).2 = copies)
  ∧ (∀ id copies, reachable p copies → id ∈ syncFiles p →
       copies !! id = None).
Proof.
  split; [|split].
  - intros H0 fs id copies stats buf Hw Hs Hr Hsync.
    rewrite (build_asset_read _ _ _ _ _ _ Hw Hs Hr). cbn [snd].
    rewrite load_copies_cases, (bool_decide_eq_true_2 _ Hsync), andb_true_r.
    unfold over_limit. rewrite H0. cbn. apply lookup_insert_eq.
  - intros fs id copies. apply load_sync_unchanged.
  - intros id copies. apply reachable_sync_absent.
Qed.

(** C9.  [wasm] never reads [limit]: setting it changes nothing, and the
    threshold is [maxFileSize], 14336 when that field is absent.  So with
    options that give [limit] alone every asset is judged against 14336
    bytes. *)
Theorem limit_option_ignored (o : RollupWasmOptions) (l : option Z) :
  wasm (with_limit l o) = wasm o
  ∧ maxFileSize (wasm o) = default 14336%Z (opt_maxFileSize o)
  ∧ ∀ n stats,
      maxFileSize (wasm (only_limit n)) = 14336%Z
      ∧ over_limit (wasm (only_limit n)) stats = (size stats >? 14336)%Z.
Proof.
  split; [reflexivity|]. split; [reflexivity|].
  intros n stats. split; [reflexivity|].
  unfold over_limit. change (maxFileSize (wasm (only_limit n))) with 14336%Z.
  cbn [JS.truthy_number Z.eqb negb andb]. apply orb_false_r.
Qed.

(** C10.  In every registry that the load phase can produce no path has both
    an entry and a place in the sync set, so [transform] never takes its
    sync-conflict branch. *)
Theorem sync_conflict_unreachable p copies :
  reachable p copies →
  (∀ id, ¬ (is_Some (copies !! id) ∧ id ∈ syncFiles p))
  ∧ (∀ code id m, transform p copies code id ≠ TransformError m).
Proof.
  intros Hreach. pose proof (reachable_ok _ _ Hreach) as Hok. split.
  - intros id [[d Hd] Hsync]. by destruct (Hok _ _ Hd).
  - intros code id m (_ & _ & _ & Ht & Hsync)%transform_error_iff.
    destruct (copies !! id) as [d|] eqn:Hd; [|discriminate].
    by destruct (Hok _ _ Hd).
Qed.

End PluginClaims.

(** ** The bootstrap: which entry point runs, and what comes back *)

Section BootstrapClaims.
Import Bootstrap.
Context {Imports : Type}.
Implicit Types (wa : engine Imports) (env : environment)
  (imports : option Imports).

Lemma loadWasmModule_node_file wa env sync filepath src imports :
  JS.truthy_opt_string filepath = true → isNode env = true →
  _loadWasmModule wa env sync filepath src imports
  = RetPromise
      match fs_readFile env (bundle_file env filepath) with
      | IoOk buf =>
          ResolvedWith (_instantiateOrCompile (SrcBuffer buf) imports false)
      | IoError e => RejectedWith e
      end.
Proof.
  intros Hf Hn. unfold _loadWasmModule. rewrite Hf, Hn. cbn [andb].
  by destruct (fs_readFile env _).
Qed.

Lemma loadWasmModule_fetch wa env sync filepath src imports :
  JS.truthy_opt_string filepath = true → isNode env = false →
  _loadWasmModule wa env sync filepath src imports
  = RetCall
      (_instantiateOrCompile (SrcFetch (JS.show_opt filepath)) imports true).
Proof. intros Hf Hn. unfold _loadWasmModule. by rewrite Hf, Hn. Qed.

Lemma loadWasmModule_inline wa env sync filepath src imports :
  JS.truthy_opt_string filepath = false →
  _loadWasmModule wa env sync filepath src imports
  = match decode_src env src with
    | None => Thrown
    | Some buf =>
        if sync then
          if Module_compiles wa buf then
            match imports with
            | Some i =>
                if Instance_links wa buf i then RetInstance buf i
                else InstanceThrows buf i
            | None => RetModule buf
            end
          else ModuleThrows buf
        else RetCall (_instantiateOrCompile (SrcBuffer buf) imports false)
    end.
Proof. intros Hf. unfold _loadWasmModule. by rewrite Hf. Qed.

(** C6.  Whether the bootstrap instantiates or only compiles is decided by
    the imports alone: [_instantiateOrCompile] instantiates when they are
    given and compiles when they are not, whatever the source and the
    streaming flag, and each of the four loading cases returns its result at
    the caller's imports: the file read on a server, the fetch elsewhere, and
    the inline payload decoded on a server or elsewhere.  Whatever the
    bootstrap returns without failing has the flavour the imports call
    for. *)
Theorem instantiate_or_compile_uniform wa env sync filepath src imports :
  (∀ s stream,
     call_flavour (_instantiateOrCompile s imports stream)
     = expected_flavour imports)
  ∧ (JS.truthy_opt_string filepath = true → isNode env = true →
     ∀ buf, fs_readFile env (bundle_file env filepath) = IoOk buf →
       _loadWasmModule wa env sync filepath src imports
       = RetPromise
           (ResolvedWith
              (_instantiateOrCompile (SrcBuffer buf) imports false)))
  ∧ (JS.truthy_opt_string filepath = true → isNode env = false →
     _loadWasmModule wa env sync filepath src imports
     = RetCall
         (_instantiateOrCompile (SrcFetch (JS.show_opt filepath)) imports
            true))
  ∧ (JS.truthy_opt_string filepath = false → isNode env = true →
     ∀ buf, Buffer_from_base64 env src = Some buf →
       _loadWasmModule wa env false filepath src imports
       = RetCall (_instantiateOrCompile (SrcBuffer buf) imports false))
  ∧ (JS.truthy_opt_string filepath = false → isNode env = false →
     ∀ raw, atob env src = Some raw →
       _loadWasmModule wa env false filepath src imports
       = RetCall
           (_instantiateOrCompile
              (SrcBuffer (BinaryText.Buffer_from_binary raw)) imports false))
  ∧ (∀ f,
       returned_flavour (_loadWasmModule wa env sync filepath src imports)
       = Some f →
       f = expected_flavour imports).
Proof.
  split; [intros; apply BootstrapFacts.instantiateOrCompile_flavour|].
  split; [intros Hf Hn buf Hb;
          by rewrite loadWasmModule_node_file, Hb by done|].
  split; [apply loadWasmModule_fetch|].
  split; [intros Hf Hn buf Hb;
          by rewrite loadWasmModule_inline,
               BootstrapFacts.decode_src_node, Hb by done|].
  split; [intros Hf Hn raw Hb;
          by rewrite loadWasmModule_inline,
               BootstrapFacts.decode_src_browser, Hb by done|].
  intros f.
  destruct (JS.truthy_opt_string filepath) eqn:Hf.
  - destruct (isNode env) eqn:Hn.
    + rewrite loadWasmModule_node_file by done.
      destruct (fs_readFile env _); [|discriminate]. cbn.
      rewrite BootstrapFacts.instantiateOrCompile_flavour. congruence.
    + rewrite loadWasmModule_fetch by done. cbn.
      rewrite BootstrapFacts.instantiateOrCompile_flavour. congruence.
  - rewrite loadWasmModule_inline by done.
    destruct (decode_src env src) as [buf|]; [|discriminate].
    destruct sync.
    + destruct (Module_compiles wa buf); [|discriminate].
      destruct imports as [i|]; [|cbn; congruence].
      destruct (Instance_links wa buf i); [cbn; congruence | discriminate].
    + cbn. rewrite BootstrapFacts.instantiateOrCompile_flavour. congruence.
Qed.

(** C7, as amended.  With no file path, once the payload is decoded: under
    [sync] the bootstrap makes the module from the bytes at once and, when
    the constructor returns (and, with imports, the instance's does), hands
    back directly, and not as a promise, the instance bound to the imports
    when there are imports and the bare module when there are none; when a
    constructor throws, the exception leaves the bootstrap and nothing is
    handed back.  Without [sync] it returns the promise of the non-streaming
    instantiate-or-compile call on the decoded bytes. *)
Theorem inline_sync_returns_or_throws wa env filepath src imports buf :
  JS.truthy_opt_string filepath = false → decode_src env src = Some buf →
  (Module_compiles wa buf = true →
     (imports = None →
        _loadWasmModule wa env true filepath src imports = RetModule buf)
     ∧ (∀ i, imports = Some i → Instance_links wa buf i = true →
          _loadWasmModule wa env true filepath src imports
          = RetInstance buf i)
     ∧ (∀ i, imports = Some i → Instance_links wa buf i = false →
          _loadWasmModule wa env true filepath src imports
          = InstanceThrows buf i))
  ∧ (Module_compiles wa buf = false →
       _loadWasmModule wa env true filepath src imports = ModuleThrows buf)
  ∧ is_promise (_loadWasmModule wa env true filepath src imports) = false
  ∧ _loadWasmModule wa env false filepath src imports
    = RetCall (_instantiateOrCompile (SrcBuffer buf) imports false)
  ∧ call_streams (_instantiateOrCompile (SrcBuffer buf) imports false) = false
  ∧ is_promise (_loadWasmModule wa env false filepath src imports) = true.
Proof.
  intros Hf Hd. rewrite !loadWasmModule_inline, Hd by done.
  split; [|split; [|split; [|split; [|split]]]].
  - intros ->. split; [by intros ->|].
    split; by intros i -> ->.
  - by intros ->.
  - destruct (Module_compiles wa buf); [|done].
    destruct imports as [i|]; [|done]. by destruct (Instance_links wa buf i).
  - reflexivity.
  - apply BootstrapFacts.instantiateOrCompile_streams.
  - reflexivity.
Qed.

(** C8.  On a server with a file path the bootstrap returns a promise that
    is rejected, with the read's error, when the read fails, and resolved
    with the non-streaming instantiate-or-compile call on the buffer read
    when it succeeds. *)
Theorem node_file_read_settles_promise wa env sync filepath src imports :
  JS.truthy_opt_string filepath = true → isNode env = true →
  (∀ e, fs_readFile env (bundle_file env filepath) = IoError e →
     _loadWasmModule wa env sync filepath src imports
     = RetPromise (RejectedWith e))
  ∧ (∀ buf, fs_readFile env (bundle_file env filepath) = IoOk buf →
     _loadWasmModule wa env sync filepath src imports
     = RetPromise
         (ResolvedWith (_instantiateOrCompile (SrcBuffer buf) imports false))
     ∧ call_streams (_instantiateOrCompile (SrcBuffer buf) imports false)
       = false).
Proof.
  intros Hf Hn. rewrite loadWasmModule_node_file by done.
  split; [by intros e ->|]. intros buf ->.
  split; [reflexivity | apply BootstrapFacts.instantiateOrCompile_streams].
Qed.

End BootstrapClaims.

(** ** The claims at concrete inputs *)

Import Demo.

(** [limit: 0] does not make the plugin copy: the header is inlined. *)
Example limit_zero_still_inlines :
  build_asset (wasm (only_limit 0)) disk "/project/a.wasm" copies_init
  = (Emitted "export default function(imports){return _loadWasmModule(0, null, 'AGFzbQEAAAA=', imports)}",
     copies_init).
Proof. reflexivity. Qed.

(** Over the limit and not sync: the module refers to the copied file. *)
Example over_limit_is_copied :
  (build_asset (wasm small_limit) disk "/project/b.wasm" copies_init).1
  = Emitted "export default function(imports){return _loadWasmModule(0, '/assets/c6006650182737e2.wasm', null, imports)}".
Proof. vm_compute. reflexivity. Qed.



(** C1, as stated, fails: with [sync: ['c.wasm']] and [maxFileSize: 4], the
    eight-byte [/project/c.wasm] is in the sync set and over the limit, yet
    the build emits the inline module and raises no error. *)
Lemma sync_over_limit_not_rejected :
  let p := wasm Demo.sync_small_limit in
  let id := "/project/c.wasm" in
  id ∈ syncFiles p ∧ JS.test_wasm id = true ∧ maxFileSize p ≠ 0%Z
  ∧ fsStatPromise Demo.disk id = IoOk {| size := 8 |}
  ∧ (8 > maxFileSize p)%Z
  ∧ (build_asset p Demo.disk id copies_init).1
    = Emitted "export default function(imports){return _loadWasmModule(1, null, 'AGFzbQEAAAA=', imports)}"
  ∧ (build_asset p Demo.disk id copies_init).1 ≠ Failed sync_conflict.
Proof.
  cbv zeta. split; [apply list_elem_of_In; left; reflexivity|].
  split; [reflexivity|]. split; [discriminate|]. split; [reflexivity|].
  split; [reflexivity|]. split; [vm_compute; reflexivity | vm_compute; discriminate].
Qed.

(** The same asset under the amended reading: inlined with the sync flag,
    the registry left empty. *)
Lemma sync_over_limit_inlined_witness :
  build_asset (wasm Demo.sync_small_limit) Demo.disk "/project/c.wasm"
    copies_init
  = (Emitted (render {| call_sync := true; call_filepath := None;
                        call_src := Some (JS.quote (Base64.encode Demo.header)) |}),
     copies_init)
  ∧ (load (wasm Demo.sync_small_limit) Demo.disk "/project/c.wasm"
       copies_init).2 = copies_init
  ∧ copies_init !! "/project/c.wasm" = None
  ∧ (build_asset (wasm Demo.sync_small_limit) Demo.disk
       "/project/c.wasm" copies_init).1 ≠ Failed sync_conflict.
Proof.
  pose proof (sync_over_limit_inlined (wasm Demo.sync_small_limit) Demo.disk
                "/project/c.wasm" copies_init {| size := 8 |} Demo.header)
    as Hthm.
  destruct Hthm as (Hemit & Hload & Hnone & Hfail).
  - apply reachable_init.
  - apply list_elem_of_In. left. reflexivity.
  - reflexivity.
  - reflexivity.
  - reflexivity.
  - discriminate.
  - reflexivity.
  - split; [apply Hemit; discriminate|]. split; [exact Hload|].
    split; [exact Hnone | exact Hfail].
Defined.

(** The header on disk, loaded as text and emitted as [AGFzbQEAAAA=]. *)
Lemma binary_text_round_trip_witness :
  (load (wasm sync_small_limit) disk "/project/d.wasm" copies_init).1
  = LoadText [0; 97; 115; 109; 1; 0; 0; 0]%N
  ∧ transform (wasm sync_small_limit)
      (load (wasm sync_small_limit) disk "/project/c.wasm" copies_init).2
      (BinaryText.toString_binary header) "/project/c.wasm"
    = TransformCode
        (render {| call_sync := bool_decide
                     ("/project/c.wasm" ∈ syncFiles (wasm sync_small_limit));
                   call_filepath := None;
                   call_src := Some (JS.quote (Base64.encode header)) |}).
Proof.
  split; [reflexivity|].
  apply (proj2 (proj2 (binary_text_round_trip header))
           (wasm sync_small_limit) disk "/project/c.wasm" copies_init
           {| size := 8 |}).
  - reflexivity.
  - reflexivity.
  - reflexivity.
  - discriminate.
  - vm_compute. reflexivity.
Defined.

(** C3, as stated, fails: an empty [.wasm] file is a matched asset with no
    destination in the registry, and [transform] emits no module for it. *)
Lemma empty_text_emits_nothing :
  let p := wasm options_empty in
  let id := "/project/a.wasm" in
  JS.test_wasm id = true
  ∧ load p empty_disk id copies_init = (LoadText [], copies_init)
  ∧ copies_init !! id = None
  ∧ transform p copies_init [] id = TransformNull
  ∧ build_asset p empty_disk id copies_init = (Untouched, copies_init).
Proof. cbv zeta. repeat split. Qed.

(** Both rows at work: [b.wasm], over the limit, is referred to by its
    destination; [c.wasm], sync, is inlined. *)
Lemma transform_decision_table_witness :
  transform (wasm small_limit)
    (load (wasm small_limit) disk "/project/b.wasm" copies_init).2
    (BinaryText.toString_binary header) "/project/b.wasm"
  = TransformCode
      "export default function(imports){return _loadWasmModule(0, '/assets/c6006650182737e2.wasm', null, imports)}"
  ∧ transform (wasm sync_small_limit) copies_init
      (BinaryText.toString_binary header) "/project/c.wasm"
    = TransformCode
        "export default function(imports){return _loadWasmModule(1, null, 'AGFzbQEAAAA=', imports)}".
Proof.
  split.
  - apply (proj1 (transform_decision_table (wasm small_limit)
             (load (wasm small_limit) disk "/project/b.wasm" copies_init).2
             (BinaryText.toString_binary header) "/project/b.wasm"
             (reachable_load _ _ _ _ (reachable_init _)) eq_refl
             ltac:(discriminate))
           "/assets/c6006650182737e2.wasm").
    + vm_compute. reflexivity.
    + apply not_elem_of_nil.
  - apply (proj1 (proj2 (transform_decision_table (wasm sync_small_limit)
             copies_init (BinaryText.toString_binary header)
             "/project/c.wasm" (reachable_init _) eq_refl
             ltac:(discriminate)))).
    reflexivity.
Defined.



(** [maxFileSize: 0]: even an empty file is entered, the sync file is not. *)
Lemma zero_limit_copies_all_but_sync_witness :
  (load (wasm always_copy) empty_disk "/project/d.wasm" copies_init).2
    !! "/project/d.wasm"
  = Some "da39a3ee5e6b4b0d.wasm"
  ∧ (load (wasm always_copy) disk "/project/c.wasm" copies_init).2
    = copies_init.
Proof.
  split.
  - apply (proj1 (zero_limit_copies_all_but_sync (wasm always_copy)) eq_refl
             empty_disk "/project/d.wasm" copies_init {| size := 0 |} []
             eq_refl eq_refl eq_refl).
    vm_compute. intros Hin. apply list_elem_of_In in Hin.
    destruct Hin as [E|[]]. discriminate E.
  - apply (proj1 (proj2 (zero_limit_copies_all_but_sync (wasm always_copy)))).
    apply list_elem_of_In. left. reflexivity.
Defined.

(** The registry after [c.wasm] (sync) and [d.wasm] have been loaded under
    [maxFileSize: 0]. *)
Lemma sync_conflict_unreachable_witness :
  let p := wasm always_copy in
  let copies :=
    (load p disk "/project/d.wasm"
       (load p disk "/project/c.wasm" copies_init).2).2 in
  ¬ (is_Some (copies !! "/project/c.wasm")
     ∧ "/project/c.wasm" ∈ syncFiles p)
  ∧ transform p copies (BinaryText.toString_binary header) "/project/c.wasm"
    ≠ TransformError sync_conflict.
Proof.
  cbv zeta.
  pose proof (sync_conflict_unreachable (wasm always_copy) _
                (reachable_load _ disk "/project/d.wasm" _
                   (reachable_load _ disk "/project/c.wasm" _
                      (reachable_init _)))) as [Hentry Herror].
  split; [apply Hentry | apply Herror].
Defined.

(** The four loading cases, with imports and without. *)
Lemma instantiate_or_compile_uniform_witness :
  Bootstrap._loadWasmModule header_engine node_env false (Some "c6006650182737e2.wasm")
    None (Some tt)
  = Bootstrap.RetPromise
      (Bootstrap.ResolvedWith
         (Bootstrap.WebAssembly_instantiate (Bootstrap.SrcBuffer header) tt))
  ∧ Bootstrap._loadWasmModule header_engine browser_env false
      (Some "c6006650182737e2.wasm") None (@None unit)
    = Bootstrap.RetCall
        (Bootstrap.WebAssembly_compileStreaming
           (Bootstrap.SrcFetch "c6006650182737e2.wasm"))
  ∧ Bootstrap._loadWasmModule header_engine node_env false None (Some "AGFzbQEAAAA=")
      (Some tt)
    = Bootstrap.RetCall
        (Bootstrap.WebAssembly_instantiate (Bootstrap.SrcBuffer header) tt)
  ∧ Bootstrap._loadWasmModule header_engine browser_env false None (Some "AGFzbQEAAAA=")
      (@None unit)
    = Bootstrap.RetCall
        (Bootstrap.WebAssembly_compile (Bootstrap.SrcBuffer header)).
Proof.
  split; [|split; [|split]].
  - apply (proj1 (proj2 (instantiate_or_compile_uniform header_engine node_env false
             (Some "c6006650182737e2.wasm") None (Some tt))) eq_refl eq_refl
             header).
    reflexivity.
  - apply (proj1 (proj2 (proj2 (instantiate_or_compile_uniform header_engine browser_env
             false (Some "c6006650182737e2.wasm") None (@None unit))))
             eq_refl eq_refl).
  - apply (proj1 (proj2 (proj2 (proj2 (instantiate_or_compile_uniform
             header_engine node_env false None (Some "AGFzbQEAAAA=") (Some tt)))))
             eq_refl eq_refl header).
    reflexivity.
  - apply (proj1 (proj2 (proj2 (proj2 (proj2 (instantiate_or_compile_uniform
             header_engine browser_env false None (Some "AGFzbQEAAAA=") (@None unit))))))
             eq_refl eq_refl (BinaryText.toString_binary header)).
    reflexivity.
Defined.

(** C7, as stated, fails: the four bytes of a sync file that holds the magic
    number alone are inlined by the plugin as [AGFzbQ==] and decoded by the
    bootstrap, and the module constructor then throws: nothing is
    returned. *)
Lemma sync_payload_not_a_module_throws :
  transform (wasm sync_small_limit) copies_init
    (BinaryText.toString_binary magic) "/project/c.wasm"
  = TransformCode
      "export default function(imports){return _loadWasmModule(1, null, 'AGFzbQ==', imports)}"
  ∧ JS.truthy_opt_string None = false
  ∧ Bootstrap.decode_src browser_env (Some "AGFzbQ==") = Some magic
  ∧ Bootstrap._loadWasmModule header_engine browser_env true None
      (Some "AGFzbQ==") None
    = Bootstrap.ModuleThrows magic
  ∧ Bootstrap._loadWasmModule header_engine browser_env true None
      (Some "AGFzbQ==") None
    ≠ Bootstrap.RetModule magic.
Proof. repeat split. discriminate. Qed.

(** The inlined header under [sync], in a browser and on Node. *)
Lemma inline_sync_returns_or_throws_witness :
  Bootstrap._loadWasmModule header_engine browser_env true None
    (Some "AGFzbQEAAAA=") (Some tt)
  = Bootstrap.RetInstance header tt
  ∧ Bootstrap._loadWasmModule header_engine node_env true None
      (Some "AGFzbQEAAAA=") (@None unit)
    = Bootstrap.RetModule header
  ∧ Bootstrap._loadWasmModule header_engine node_env true None
      (Some "AGFzbQ==") (@None unit)
    = Bootstrap.ModuleThrows magic.
Proof.
  split; [|split].
  - apply (proj1 (proj2 (proj1 (inline_sync_returns_or_throws header_engine
             browser_env None (Some "AGFzbQEAAAA=") (Some tt) header eq_refl
             eq_refl) eq_refl)) tt eq_refl eq_refl).
  - apply (proj1 (proj1 (inline_sync_returns_or_throws header_engine
             node_env None (Some "AGFzbQEAAAA=") (@None unit) header eq_refl
             eq_refl) eq_refl) eq_refl).
  - apply (proj1 (proj2 (inline_sync_returns_or_throws header_engine
             node_env None (Some "AGFzbQ==") (@None unit) magic eq_refl
             eq_refl)) eq_refl).
Defined.

(** A missing file and a present one, on Node. *)
Lemma node_file_read_settles_promise_witness :
  Bootstrap._loadWasmModule header_engine node_env false (Some "missing.wasm") None
    (Some tt)
  = Bootstrap.RetPromise (Bootstrap.RejectedWith "ENOENT")
  ∧ Bootstrap._loadWasmModule header_engine node_env false (Some "c6006650182737e2.wasm")
      None (@None unit)
    = Bootstrap.RetPromise
        (Bootstrap.ResolvedWith
           (Bootstrap.WebAssembly_compile (Bootstrap.SrcBuffer header))).
Proof.
  split.
  - apply (proj1 (node_file_read_settles_promise header_engine node_env false
             (Some "missing.wasm") None (Some tt) eq_refl eq_refl)).
    reflexivity.
  - apply (proj1 (proj2 (node_file_read_settles_promise header_engine node_env false
             (Some "c6006650182737e2.wasm") None (@None unit) eq_refl
             eq_refl) header eq_refl)).
Defined.

(** * Further properties of the hooks, the bootstrap and the finalize step *)

(** ** Further properties of [load] *)

(** X1.  [load] writes the registry at its own key only, and removes no
    entry: every other path keeps what it had, and a path that had an entry
    still has one. *)
Theorem load_keeps_other_entries p fs id (copies : gmap string string) :
  (∀ id', id' ≠ id → (load p fs id copies).2 !! id' = copies !! id')
  ∧ (∀ id', is_Some (copies !! id') →
       is_Some ((load p fs id copies).2 !! id')).
Proof.
  rewrite load_registry.
  destruct (JS.test_wasm id); [|done].
  destruct (fsStatPromise fs id) as [stats|]; [|done].
  destruct (fsReadFilePromise fs id) as [buf|]; [|done].
  rewrite load_copies_cases.
  destruct (over_limit p stats && bool_decide (id ∉ syncFiles p)); [|done].
  split.
  - intros id' Hne. by rewrite lookup_insert_ne.
  - intros id' Hsome. rewrite lookup_insert. by case_decide.
Qed.

(** X2.  The registry changes only when [load] has read a [.wasm] file
    outside the sync set that is over the limit; it then returns the file's
    text and the registry with the file's destination entered.  A path of
    another kind, a failed [stat] or a failed read leave the registry as it
    was. *)
Theorem load_registers_only_on_success p fs id (copies : gmap string string) :
  (load p fs id copies).2 ≠ copies →
  JS.test_wasm id = true ∧ (id ∉ syncFiles p)
  ∧ ∃ stats buf,
      fsStatPromise fs id = IoOk stats ∧ fsReadFilePromise fs id = IoOk buf
      ∧ over_limit p stats = true
      ∧ load p fs id copies
        = (LoadText (BinaryText.toString_binary buf),
           <[id := destination p buf]> copies).
Proof.
  unfold load.
  destruct (JS.test_wasm id); cbn [negb]; [|done].
  destruct (fsStatPromise fs id) as [stats|]; [|done].
  destruct (fsReadFilePromise fs id) as [buf|]; [|done].
  cbn [snd]. rewrite load_copies_cases.
  destruct (over_limit p stats) eqn:Hover; [|done]. cbn [andb].
  case_bool_decide as Hsync; [|done]. intros _.
  split; [done|]. split; [done|]. by exists stats, buf.
Qed.

Lemma over_limit_iff p stats :
  over_limit p stats = true ↔
    maxFileSize p = 0%Z ∨ (size stats > maxFileSize p)%Z.
Proof.
  unfold over_limit, JS.truthy_number. rewrite Z.gtb_ltb.
  destruct (Z.eqb_spec (maxFileSize p) 0), (Z.ltb_spec (maxFileSize p) (size stats));
    cbn; split; intros Hx; try done; try lia; auto.
Qed.

(** X3.  For a [.wasm] file that is read: the registry gets the entry when
    [maxFileSize] is zero or below the size and the path is not sync, and is
    left alone when [maxFileSize] is not zero and at least the size, or the
    path is sync.  So a negative [maxFileSize] has every file outside the
    sync set copied. *)
Theorem load_classification p fs id (copies : gmap string string) stats buf :
  JS.test_wasm id = true →
  fsStatPromise fs id = IoOk stats → fsReadFilePromise fs id = IoOk buf →
  ((maxFileSize p = 0%Z ∨ (size stats > maxFileSize p)%Z) →
   id ∉ syncFiles p →
   (load p fs id copies).2 = <[id := destination p buf]> copies)
  ∧ ((maxFileSize p ≠ 0%Z ∧ (size stats ≤ maxFileSize p)%Z) ∨ id ∈ syncFiles p →
     (load p fs id copies).2 = copies)
  ∧ ((maxFileSize p < 0)%Z → (0 ≤ size stats)%Z → id ∉ syncFiles p →
     (load p fs id copies).2 !! id = Some (destination p buf)).
Proof.
  intros Hw Hs Hr. rewrite (build_asset_read _ _ _ _ _ _ Hw Hs Hr). cbn [snd].
  rewrite load_copies_cases.
  pose proof (over_limit_iff p stats) as Hov.
  split; [|split].
  - intros Hbig Hsync. apply Hov in Hbig.
    by rewrite Hbig, bool_decide_eq_true_2.
  - intros [[Hnz Hle]|Hsync].
    + destruct (over_limit p stats); [|done].
      destruct Hov as [Hov _]. destruct (Hov eq_refl); [done | lia].
    + rewrite (bool_decide_eq_false_2 (id ∉ syncFiles p)) by auto.
      by rewrite andb_false_r.
  - intros Hneg Hsize Hsync.
    assert (over_limit p stats = true) as -> by (apply Hov; right; lia).
    rewrite bool_decide_eq_true_2 by done. apply lookup_insert_eq.
Qed.

(** X4.  An entry outlives the condition that made it: when an asset that
    is in the registry is loaded again and is now within the limit, [load]
    keeps the old destination and [transform] still emits the module that
    refers to the copied file. *)
Theorem stale_entry_still_copied p fs id copies d stats buf :
  reachable p copies → copies !! id = Some d →
  fsStatPromise fs id = IoOk stats → fsReadFilePromise fs id = IoOk buf →
  maxFileSize p ≠ 0%Z → (size stats ≤ maxFileSize p)%Z → buf ≠ [] →
  build_asset p fs id copies
  = (Emitted (render {| call_sync := false;
                        call_filepath := Some (JS.quote d);
                        call_src := None |}),
     copies).
Proof.
  intros Hreach Hd Hs Hr Hnz Hle Hbuf.
  destruct (reachable_ok _ _ Hreach _ _ Hd) as (Hsync & Hw & Ht).
  unfold build_asset. rewrite (build_asset_read _ _ _ _ _ _ Hw Hs Hr).
  rewrite load_copies_cases.
  assert (over_limit p stats = false) as ->.
  { destruct (over_limit p stats) eqn:E; [|done].
    apply over_limit_iff in E. lia. }
  cbn [andb]. rewrite (transform_copied _ _ _ _ d); by try destruct buf.
Qed.

(** ** The shape of a destination *)

Lemma append_assoc_string (a b c : string) : a +:+ (b +:+ c) = (a +:+ b) +:+ c.
Proof.
  induction a as [|x a IH]; [reflexivity|]. by rewrite !append_String, IH.
Qed.

Lemma length_append_string (a b : string) :
  String.length (a +:+ b) = (String.length a + String.length b)%nat.
Proof.
  induction a as [|x a IH]; [reflexivity|].
  rewrite append_String. cbn [String.length]. by rewrite IH.
Qed.

Lemma substr0_append (a b : string) :
  JS.substr0 (String.length a) (a +:+ b) = a.
Proof.
  unfold JS.substr0. induction a as [|x a IH].
  - rewrite append_empty. by destruct b.
  - rewrite append_String. cbn [String.length String.substring].
    by rewrite IH.
Qed.

Lemma substr0_prefix (a b : string) n :
  String.length a = n → JS.substr0 n (a +:+ b) = a.
Proof. intros <-. apply substr0_append. Qed.

Lemma string_forall_append f (a b : string) :
  string_forall f (a +:+ b) = string_forall f a && string_forall f b.
Proof.
  induction a as [|x a IH]; [reflexivity|].
  rewrite append_String. cbn [string_forall]. rewrite IH. apply andb_assoc.
Qed.

Lemma hex_digit_lower n : (n < 16)%N → is_lower_hex (SHA1.hex_digit n) = true.
Proof.
  intros Hn. rewrite <- (N2Nat.id n).
  assert (N.to_nat n < 16)%nat as Hk by lia. revert Hk.
  generalize (N.to_nat n). intros k Hk.
  do 16 (destruct k as [|k]; [reflexivity|]). lia.
Qed.

Lemma hex_length k x : String.length (SHA1.hex k x) = k.
Proof. induction k as [|k IH]; [reflexivity|]. cbn. by rewrite IH. Qed.

Lemma hex_lower k x : string_forall is_lower_hex (SHA1.hex k x) = true.
Proof.
  induction k as [|k IH]; [reflexivity|].
  cbn [SHA1.hex string_forall]. rewrite IH, andb_true_r.
  apply hex_digit_lower. change 15%N with (N.ones 4).
  rewrite N.land_ones. apply N.mod_lt. discriminate.
Qed.

Lemma hash_shape (buf : buffer) :
  String.length (JS.substr0 16 (SHA1.digest_hex buf)) = 16%nat
  ∧ string_forall is_lower_hex (JS.substr0 16 (SHA1.digest_hex buf)) = true.
Proof.
  unfold SHA1.digest_hex.
  set (s := SHA1.blocks _ _ _).
  rewrite append_assoc_string.
  rewrite (substr0_prefix (SHA1.hex 8 (SHA1.ha s) +:+ SHA1.hex 8 (SHA1.hb s)))
    by (by rewrite length_append_string, !hex_length).
  split; [by rewrite length_append_string, !hex_length|].
  by rewrite string_forall_append, !hex_lower.
Qed.

(** Every entry of a registry the load phase can produce is a destination
    of some buffer. *)
Lemma reachable_destination p copies id d :
  reachable p copies → copies !! id = Some d → ∃ buf, d = destination p buf.
Proof.
  intros Hreach. revert id d.
  induction Hreach as [|fs id0 copies _ IH]; intros id d.
  - unfold copies_init. by rewrite lookup_empty.
  - rewrite load_registry.
    destruct (JS.test_wasm id0); [|apply IH].
    destruct (fsStatPromise fs id0) as [stats|]; [|apply IH].
    destruct (fsReadFilePromise fs id0) as [buf|]; [|apply IH].
    rewrite load_copies_cases.
    destruct (over_limit p stats && bool_decide (id0 ∉ syncFiles p));
      [|apply IH].
    rewrite lookup_insert. case_decide; [|apply IH].
    intros [= <-]. by exists buf.
Qed.

(** X5.  Every entry of a registry that the load phase can produce belongs
    to a [.wasm] path, and its destination is [publicPath] followed by
    sixteen lower-case hexadecimal digits and [.wasm]. *)
Theorem registered_destination_shape p copies id d :
  reachable p copies → copies !! id = Some d →
  JS.test_wasm id = true
  ∧ ∃ hash, d = publicPath p +:+ hash +:+ ".wasm"
      ∧ String.length hash = 16%nat
      ∧ string_forall is_lower_hex hash = true.
Proof.
  intros Hreach Hd. destruct (reachable_ok _ _ Hreach _ _ Hd) as (_ & Hw & _).
  split; [exact Hw|].
  destruct (reachable_destination _ _ _ _ Hreach Hd) as [buf ->].
  exists (JS.substr0 16 (SHA1.digest_hex buf)).
  split; [reflexivity | apply hash_shape].
Qed.

(** ** Further properties of [transform] *)

(** X6.  Whatever the registry holds, the text that [transform] emits is
    the call template filled in one of two ways: when the registry has no
    destination for the path, or an empty one, with the sync flag of the
    path, [null] for the file path and the quoted base64 of the text's
    bytes; when it has a destination that is not empty and the path is not
    sync, with the flag [0], the quoted destination and [null] for the
    payload.  The template is never filled with a destination and a
    payload, nor with a destination and the flag [1].  (The values go into
    the text as they are, without escaping.) *)
Theorem emitted_module_one_source p (copies : gmap string string) code id s :
  transform p copies code id = TransformCode s →
  (JS.truthy_opt_string (copies !! id) = false
   ∧ s = render {| call_sync := bool_decide (id ∈ syncFiles p);
                   call_filepath := None;
                   call_src :=
                     Some (JS.quote (Base64.encode
                             (BinaryText.Buffer_from_binary code))) |})
  ∨ (∃ d, copies !! id = Some d ∧ JS.truthy_string d = true
       ∧ (id ∉ syncFiles p)
       ∧ s = render {| call_sync := false;
                       call_filepath := Some (JS.quote d);
                       call_src := None |}).
Proof.
  unfold transform. rewrite indexOf_test.
  destruct (JS.truthy_text code && JS.test_wasm id); [|done].
  assert (negb (bool_decide (id ∉ syncFiles p))
          = bool_decide (id ∈ syncFiles p)) as Hflag.
  { destruct (decide (id ∈ syncFiles p));
      [rewrite bool_decide_eq_false_2, bool_decide_eq_true_2
      |rewrite bool_decide_eq_true_2, bool_decide_eq_false_2]; auto. }
  destruct (JS.truthy_opt_string (copies !! id)) eqn:Ht.
  - destruct (copies !! id) as [d|]; [|discriminate Ht].
    cbn [fmap option_fmap option_map].
    case_bool_decide as Hs; cbn [negb]; [|done].
    intros [= <-]. right. exists d. by repeat split.
  - intros [= <-]. left. split; [reflexivity|]. by rewrite Hflag.
Qed.

(** X7.  [transform] answers [null] exactly when the text is empty or the
    path does not end in [.wasm], whatever the registry and the sync set. *)
Theorem transform_null_iff p (copies : gmap string string) code id :
  transform p copies code id = TransformNull ↔
    code = [] ∨ JS.test_wasm id = false.
Proof.
  unfold transform.
  destruct code as [|c code]; cbn [JS.truthy_text andb]; [by split; auto|].
  destruct (JS.test_wasm id); [|by split; auto].
  split; [|intros [|]; done].
  destruct (JS.truthy_opt_string (copies !! id)); [|done].
  destruct (copies !! id); cbn; [|done].
  by destruct (negb _).
Qed.

Lemma low_byte_land c : BinaryText.low_byte (N.land c 255) = BinaryText.low_byte c.
Proof.
  unfold BinaryText.low_byte. by rewrite <- N.land_assoc, N.land_diag.
Qed.

Lemma to_N_low_byte c : Byte.to_N (BinaryText.low_byte c) = N.land c 255.
Proof.
  unfold BinaryText.low_byte.
  assert (N.land c 255 < 256)%N as Hlt.
  { change 255%N with (N.ones 8). rewrite N.land_ones.
    apply N.mod_lt. discriminate. }
  destruct (Byte.of_N (N.land c 255)) as [b|] eqn:E.
  - by apply Byte.to_of_N in E.
  - apply Byte.of_N_None_iff in E. lia.
Qed.

(** X8.  [transform] reads the low byte of each code unit and nothing
    else: a text and the same text with every unit reduced to its low eight
    bits give the same result, and turning the decoded bytes back to text
    gives the reduced text. *)
Theorem transform_reads_low_bytes p (copies : gmap string string) code id :
  transform p copies code id
  = transform p copies ((λ c, N.land c 255) <$> code) id
  ∧ BinaryText.toString_binary (BinaryText.Buffer_from_binary code)
    = (λ c, N.land c 255) <$> code.
Proof.
  split.
  - unfold transform.
    assert (BinaryText.Buffer_from_binary ((λ c, N.land c 255) <$> code)
            = BinaryText.Buffer_from_binary code) as ->.
    { unfold BinaryText.Buffer_from_binary.
      rewrite <- list_fmap_compose. apply list_fmap_ext.
      intros i c _. apply low_byte_land. }
    by destruct code.
  - unfold BinaryText.toString_binary, BinaryText.Buffer_from_binary.
    rewrite <- list_fmap_compose. apply list_fmap_ext.
    intros i c _. apply to_N_low_byte.
Qed.

(** ** Further properties of the bootstrap *)

Section BootstrapExtras.
Import Bootstrap.
Context {Imports : Type}.
Implicit Types (wa : engine Imports) (env : environment)
  (imports : option Imports).

(** X9.  With a file path the bootstrap looks at neither [sync] nor [src],
    and what it returns is a promise: a copied asset is never loaded
    synchronously. *)
Theorem file_path_ignores_sync_and_src wa env filepath imports :
  JS.truthy_opt_string filepath = true →
  ∀ sync sync' src src',
    _loadWasmModule wa env sync filepath src imports
    = _loadWasmModule wa env sync' filepath src' imports
    ∧ is_promise (_loadWasmModule wa env sync filepath src imports) = true.
Proof.
  intros Hf sync sync' src src'. unfold _loadWasmModule. rewrite Hf.
  cbn [andb]. destruct (isNode env); [|done].
  by destruct (callback_args _).
Qed.

(** X10.  Off Node, the loop over [atob]'s text builds a buffer of the
    text's length whose byte at each index is the low byte of the unit
    there; when the text is the binary text of some bytes, the buffer is
    those bytes. *)
Theorem browser_loop_rebuilds_bytes env src raw :
  isNode env = false → atob env src = Some raw →
  ∃ buf, decode_src env src = Some buf
    ∧ length buf = length raw
    ∧ (∀ i c, raw !! i = Some c → buf !! i = Some (BinaryText.low_byte c))
    ∧ (∀ P, raw = BinaryText.toString_binary P → buf = P).
Proof.
  intros Hn Ha. exists (BinaryText.Buffer_from_binary raw).
  rewrite BootstrapFacts.decode_src_browser, Ha by done.
  unfold BinaryText.Buffer_from_binary.
  split; [reflexivity|]. split; [apply length_fmap|]. split.
  - intros i c Hc. by rewrite list_lookup_fmap, Hc.
  - intros P ->. apply binary_roundtrip.
Qed.

(** X11.  A streaming entry point is called exactly in the fetch case: the
    call that the bootstrap returns, or resolves its promise with, streams
    when there is a file path and the environment is not Node, and in no
    other case. *)
Theorem streaming_only_for_fetch wa env sync filepath src imports c :
  returned_call (_loadWasmModule wa env sync filepath src imports) = Some c →
  call_streams c = JS.truthy_opt_string filepath && negb (isNode env).
Proof.
  unfold _loadWasmModule.
  destruct (JS.truthy_opt_string filepath); cbn [andb].
  - destruct (isNode env); cbn [negb].
    + destruct (fs_readFile env _); cbn; [|done].
      intros [= <-]. apply BootstrapFacts.instantiateOrCompile_streams.
    + cbn. intros [= <-]. apply BootstrapFacts.instantiateOrCompile_streams.
  - destruct (decode_src env src) as [buf|]; [|done].
    destruct sync.
    + destruct (Module_compiles wa buf); [|done].
      destruct imports as [i|]; [|done]. by destruct (Instance_links wa buf i).
    + cbn. intros [= <-]. apply BootstrapFacts.instantiateOrCompile_streams.
Qed.

End BootstrapExtras.

(** ** The finalize step *)

Section FinalizeExtras.
Import Finalize.
Context `{NodePath}.
Implicit Types (ev : disk_events) (copies : gmap string string)
  (o : OutputOptions).

Lemma elem_of_concat_fmap {A B} (f : A → list B) (l : list A) (x : B) :
  x ∈ concat (f <$> l) ↔ ∃ y, y ∈ l ∧ x ∈ f y.
Proof.
  induction l as [|a l IH]; cbn.
  - split; [by intros ?%elem_of_nil | by intros (y & ?%elem_of_nil & _)].
  - rewrite elem_of_app, IH. split.
    + intros [Hx | (y & Hy & Hx)].
      * exists a. split; [apply list_elem_of_here | done].
      * exists y. split; [by apply list_elem_of_further | done].
    + intros (y & [-> | Hy]%elem_of_cons & Hx); [by left | right; eauto].
Qed.

Lemma copy_entry_copies ev base entry src dest :
  (src, dest) ∈ run_copies (copy_entry ev base entry) ↔
    src = entry.1 ∧ dest = path_join base entry.2
    ∧ makeDir ev (path_join base (path_dirname entry.2)) = IoOk ().
Proof.
  unfold copy_entry.
  destruct (makeDir ev _) as [[]|e]; cbn [run_copies].
  - rewrite list_elem_of_singleton. split.
    + by intros [= -> ->].
    + by intros (-> & -> & _).
  - split; [by intros ?%elem_of_nil | by intros (_ & _ & ?)].
Qed.

Lemma generateBundle_copy_registered ev copies o src dest :
  (src, dest) ∈ run_copies (generateBundle ev copies o) →
  ∃ output,
    copies !! src = Some output ∧ dest = path_join (output_base o) output.
Proof.
  unfold generateBundle. destruct (no_base o); [by intros ?%elem_of_nil|].
  destruct (makeDir ev (output_base o)); cbn [run_copies];
    [|by intros ?%elem_of_nil].
  rewrite <- list_fmap_compose, elem_of_concat_fmap.
  intros ([name output] & Hin%elem_of_map_to_list & Hx).
  apply copy_entry_copies in Hx as (-> & -> & _). by exists output.
Qed.

Lemma promise_all_ok (rs : list (io_result unit)) :
  promise_all rs = IoOk () ↔ Forall (λ r, r = IoOk ()) rs.
Proof.
  induction rs as [|[[]|e] rs IH]; cbn.
  - split; [constructor | done].
  - rewrite IH. split; [by constructor | by inversion 1].
  - split; [done | by inversion 1].
Qed.

Lemma copy_entry_outcome ev base entry :
  run_outcome (copy_entry ev base entry) = IoOk () ↔
    makeDir ev (path_join base (path_dirname entry.2)) = IoOk ()
    ∧ copy ev entry.1 (path_join base entry.2) = IoOk ().
Proof.
  unfold copy_entry.
  destruct (makeDir ev _) as [[]|e]; cbn [run_outcome].
  - split; [done | by intros [_ ?]].
  - split; [done | by intros [? _]].
Qed.

(** X13.  The promise of [generateBundle] is fulfilled exactly when there
    is no base to write to, or the base directory is made and, for every
    entry of the registry, its directory is made and neither stream of its
    copy fails. *)
Theorem bundle_succeeds_iff ev copies o :
  run_outcome (generateBundle ev copies o) = IoOk () ↔
    no_base o = true
    ∨ (makeDir ev (output_base o) = IoOk ()
       ∧ ∀ name output, copies !! name = Some output →
           makeDir ev (path_join (output_base o) (path_dirname output))
           = IoOk ()
           ∧ read_error ev name = None
           ∧ write_error ev (path_join (output_base o) output) = None).
Proof.
  assert (∀ src dest, copy ev src dest = IoOk () ↔
            read_error ev src = None ∧ write_error ev dest = None) as Hcopy.
  { intros src dest. unfold copy.
    destruct (read_error ev src), (write_error ev dest);
      split; try done; by intros [? ?]. }
  unfold generateBundle. destruct (no_base o); [by split; auto|].
  destruct (makeDir ev (output_base o)) as [[]|e]; cbn [run_outcome].
  - rewrite promise_all_ok, Forall_fmap, Forall_fmap, Forall_forall. split.
    + intros Hall. right. split; [done|]. intros name output Hin.
      apply elem_of_map_to_list in Hin. apply Hall in Hin. cbn in Hin.
      apply copy_entry_outcome in Hin as [Hdir Hc]. apply Hcopy in Hc.
      by destruct Hc.
    + intros [|[_ Hall]]; [done|]. intros [name output] Hin. cbn.
      apply elem_of_map_to_list in Hin. apply Hall in Hin as (? & ? & ?).
      apply copy_entry_outcome. split; [done|]. by apply Hcopy.
  - split; [done | by intros [|[? _]]].
Qed.

Lemma copy_entry_quiet ev base entry :
  run_copies (copy_entry (quiet_streams ev) base entry)
  = run_copies (copy_entry ev base entry)
  ∧ run_dirs (copy_entry (quiet_streams ev) base entry)
    = run_dirs (copy_entry ev base entry).
Proof.
  unfold copy_entry. cbn [makeDir quiet_streams].
  by destruct (makeDir ev _).
Qed.

(** X14.  A failing stream changes the outcome and nothing else: the
    directories made and the copies started are those of a run in which no
    stream fails, so one failed copy neither stops nor undoes the others. *)
Theorem stream_failures_stop_nothing ev copies o :
  run_copies (generateBundle ev copies o)
  = run_copies (generateBundle (quiet_streams ev) copies o)
  ∧ run_dirs (generateBundle ev copies o)
    = run_dirs (generateBundle (quiet_streams ev) copies o).
Proof.
  unfold generateBundle. destruct (no_base o); [done|].
  cbn [makeDir quiet_streams].
  destruct (makeDir ev (output_base o)); [|done]. cbn [run_copies run_dirs].
  rewrite <- !list_fmap_compose.
  split; [|f_equal]; f_equal; apply list_fmap_ext; intros i entry _; cbn;
    by destruct (copy_entry_quiet ev (output_base o) entry).
Qed.

Lemma copy_entries_sources ev base (l : list (string * string)) :
  NoDup l.*1 →
  NoDup (concat (run_copies <$> (copy_entry ev base <$> l))).*1
  ∧ ∀ x, x ∈ concat (run_copies <$> (copy_entry ev base <$> l)) →
         x.1 ∈ l.*1.
Proof.
  induction l as [|[name output] l IH].
  - intros _. split; [constructor | by intros x ?%elem_of_nil].
  - rewrite !fmap_cons. cbn [concat fst].
    intros [Hnotin Hnodup]%NoDup_cons. destruct (IH Hnodup) as [IH1 IH2].
    unfold copy_entry at 1 3. cbn [fst snd].
    destruct (makeDir ev _); cbn [run_copies app].
    + rewrite fmap_cons. cbn [fst]. split.
      * apply NoDup_cons. split; [|exact IH1].
        intros ([n' o'] & Hn & Hx%IH2)%list_elem_of_fmap. cbn in Hn, Hx.
        by subst n'.
      * intros x [->|Hx%IH2]%elem_of_cons;
          [apply list_elem_of_here | by apply list_elem_of_further].
    + split; [exact IH1|]. intros x Hx%IH2. by apply list_elem_of_further.
Qed.

(** X12.  [generateBundle] calls [copy(src, dest)] exactly for the entries
    [src ↦ output] of the registry, with [dest] the output under the base
    directory, and only when there is a base, the base directory could be
    made and so could the directory of the destination. *)
Theorem copies_issued ev copies o src dest :
  (src, dest) ∈ run_copies (generateBundle ev copies o) ↔
    no_base o = false
    ∧ makeDir ev (output_base o) = IoOk ()
    ∧ ∃ output,
        copies !! src = Some output
        ∧ dest = path_join (output_base o) output
        ∧ makeDir ev (path_join (output_base o) (path_dirname output))
          = IoOk ().
Proof.
  unfold generateBundle. destruct (no_base o).
  { split; [by intros ?%elem_of_nil | by intros [? _]]. }
  destruct (makeDir ev (output_base o)) as [[]|e]; cbn [run_copies].
  - rewrite <- list_fmap_compose, elem_of_concat_fmap. split.
    + intros ([name output] & Hin%elem_of_map_to_list & Hx).
      apply copy_entry_copies in Hx as (-> & -> & Hdir).
      split; [done|]. split; [done|]. by exists output.
    + intros (_ & _ & output & Hin & -> & Hdir).
      exists (src, output). split; [by apply elem_of_map_to_list|].
      by apply copy_entry_copies.
  - split; [by intros ?%elem_of_nil | by intros (_ & ? & _)].
Qed.

(** X15.  Run on a registry that the load phase produced, [generateBundle]
    copies no path twice, copies only [.wasm] paths outside the sync set,
    and names each copy, under the base directory, [publicPath] followed by
    sixteen lower-case hexadecimal digits and [.wasm]. *)
Theorem finalize_copies_registered_assets p ev copies o :
  reachable p copies →
  NoDup (run_copies (generateBundle ev copies o)).*1
  ∧ ∀ src dest, (src, dest) ∈ run_copies (generateBundle ev copies o) →
      (src ∉ syncFiles p) ∧ JS.test_wasm src = true
      ∧ ∃ hash,
          dest = path_join (output_base o)
                   (publicPath p +:+ hash +:+ ".wasm")
          ∧ String.length hash = 16%nat
          ∧ string_forall is_lower_hex hash = true.
Proof.
  intros Hreach. split.
  - unfold generateBundle. destruct (no_base o); [constructor|].
    destruct (makeDir ev (output_base o)); [|constructor]. cbn [run_copies].
    apply copy_entries_sources, NoDup_fst_map_to_list.
  - intros src dest (output & Hin & ->)%generateBundle_copy_registered.
    destruct (reachable_ok _ _ Hreach _ _ Hin) as (Hsync & Hw & _).
    split; [done|]. split; [done|].
    destruct (reachable_destination _ _ _ _ Hreach Hin) as [buf ->].
    exists (JS.substr0 16 (SHA1.digest_hex buf)).
    split; [reflexivity | apply hash_shape].
Qed.

End FinalizeExtras.

(** ** The further properties at concrete inputs *)

Import DemoOutput.

(** Loading [b.wasm] leaves the entry of [d.wasm] alone. *)
Lemma load_keeps_other_entries_witness :
  (load (wasm small_limit) disk "/project/b.wasm"
     (load (wasm small_limit) disk "/project/d.wasm" copies_init).2).2
    !! "/project/d.wasm"
  = (load (wasm small_limit) disk "/project/d.wasm" copies_init).2
      !! "/project/d.wasm".
Proof.
  apply (proj1 (load_keeps_other_entries (wasm small_limit) disk
                  "/project/b.wasm" _) "/project/d.wasm").
  discriminate.
Defined.

(** An eight-byte file over a limit of four changes the registry. *)
Lemma load_registers_only_on_success_witness :
  JS.test_wasm "/project/b.wasm" = true
  ∧ ("/project/b.wasm" ∉ syncFiles (wasm small_limit))
  ∧ ∃ stats buf,
      fsStatPromise disk "/project/b.wasm" = IoOk stats
      ∧ fsReadFilePromise disk "/project/b.wasm" = IoOk buf
      ∧ over_limit (wasm small_limit) stats = true
      ∧ load (wasm small_limit) disk "/project/b.wasm" copies_init
        = (LoadText (BinaryText.toString_binary buf),
           <["/project/b.wasm" := destination (wasm small_limit) buf]>
             copies_init).
Proof.
  apply (load_registers_only_on_success (wasm small_limit) disk
           "/project/b.wasm" copies_init).
  intros E. apply (f_equal (λ m : gmap string string, m !! "/project/b.wasm")) in E.
  vm_compute in E. discriminate E.
Defined.

(** [maxFileSize: -1]: the empty file is copied. *)
Lemma load_classification_witness :
  (load {| syncFiles := []; maxFileSize := -1; publicPath := "" |}
     empty_disk "/project/e.wasm" copies_init).2 !! "/project/e.wasm"
  = Some "da39a3ee5e6b4b0d.wasm".
Proof.
  apply (proj2 (proj2 (load_classification
           {| syncFiles := []; maxFileSize := -1; publicPath := "" |}
           empty_disk "/project/e.wasm" copies_init {| size := 0 |} []
           eq_refl eq_refl eq_refl))).
  - reflexivity.
  - discriminate.
  - apply not_elem_of_nil.
Defined.

(** [b.wasm] was eight bytes and copied; now four bytes, it still is. *)
Lemma stale_entry_still_copied_witness :
  build_asset (wasm small_limit) (disk_of magic) "/project/b.wasm"
    (load (wasm small_limit) disk "/project/b.wasm" copies_init).2
  = (Emitted
       (render {| call_sync := false;
                  call_filepath :=
                    Some (JS.quote "/assets/c6006650182737e2.wasm");
                  call_src := None |}),
     (load (wasm small_limit) disk "/project/b.wasm" copies_init).2).
Proof.
  apply (stale_entry_still_copied (wasm small_limit) (disk_of magic)
           "/project/b.wasm" _ "/assets/c6006650182737e2.wasm"
           {| size := 4 |} magic).
  - apply reachable_load, reachable_init.
  - vm_compute. reflexivity.
  - reflexivity.
  - reflexivity.
  - discriminate.
  - reflexivity.
  - discriminate.
Defined.

Lemma registered_destination_shape_witness :
  JS.test_wasm "/project/d.wasm" = true
  ∧ ∃ hash,
      "/assets/6a34c13a9b6d65d6.wasm"
      = publicPath (wasm small_limit) +:+ hash +:+ ".wasm"
      ∧ String.length hash = 16%nat
      ∧ string_forall is_lower_hex hash = true.
Proof.
  apply (registered_destination_shape (wasm small_limit) two_copies
           "/project/d.wasm" "/assets/6a34c13a9b6d65d6.wasm").
  - apply reachable_load, reachable_load, reachable_init.
  - vm_compute. reflexivity.
Defined.

Lemma emitted_module_one_source_witness :
  (JS.truthy_opt_string (two_copies !! "/project/b.wasm") = false
   ∧ "export default function(imports){return _loadWasmModule(0, '/assets/c6006650182737e2.wasm', null, imports)}"
     = render {| call_sync :=
                   bool_decide
                     ("/project/b.wasm" ∈ syncFiles (wasm small_limit));
                 call_filepath := None;
                 call_src :=
                   Some (JS.quote (Base64.encode
                           (BinaryText.Buffer_from_binary
                              (BinaryText.toString_binary header)))) |})
  ∨ (∃ d, two_copies !! "/project/b.wasm" = Some d
       ∧ JS.truthy_string d = true
       ∧ ("/project/b.wasm" ∉ syncFiles (wasm small_limit))
       ∧ "export default function(imports){return _loadWasmModule(0, '/assets/c6006650182737e2.wasm', null, imports)}"
         = render {| call_sync := false;
                     call_filepath := Some (JS.quote d);
                     call_src := None |}).
Proof.
  apply (emitted_module_one_source (wasm small_limit) two_copies
           (BinaryText.toString_binary header) "/project/b.wasm").
  vm_compute. reflexivity.
Defined.

(** A module that is not WebAssembly is left alone. *)
Lemma transform_null_iff_witness :
  transform (wasm small_limit) two_copies [105; 109; 112]%N "/project/main.js"
  = TransformNull.
Proof.
  apply (proj2 (transform_null_iff (wasm small_limit) two_copies
                  [105; 109; 112]%N "/project/main.js")).
  right. reflexivity.
Defined.

Lemma file_path_ignores_sync_and_src_witness :
  Bootstrap._loadWasmModule header_engine node_env true (Some "c6006650182737e2.wasm")
    (Some "AGFzbQEAAAA=") (Some tt)
  = Bootstrap._loadWasmModule header_engine node_env false (Some "c6006650182737e2.wasm")
      None (Some tt)
  ∧ Bootstrap.is_promise
      (Bootstrap._loadWasmModule header_engine node_env true
         (Some "c6006650182737e2.wasm") (Some "AGFzbQEAAAA=") (Some tt))
    = true.
Proof.
  apply (file_path_ignores_sync_and_src header_engine node_env
           (Some "c6006650182737e2.wasm") (Some tt) eq_refl
           true false (Some "AGFzbQEAAAA=") None).
Defined.

Lemma browser_loop_rebuilds_bytes_witness :
  ∃ buf,
    Bootstrap.decode_src browser_env (Some "AGFzbQEAAAA=") = Some buf
    ∧ length buf = length (BinaryText.toString_binary header)
    ∧ (∀ i c, BinaryText.toString_binary header !! i = Some c →
         buf !! i = Some (BinaryText.low_byte c))
    ∧ (∀ P, BinaryText.toString_binary header = BinaryText.toString_binary P →
         buf = P).
Proof.
  apply (browser_loop_rebuilds_bytes browser_env (Some "AGFzbQEAAAA=")
           (BinaryText.toString_binary header)); reflexivity.
Defined.

Lemma streaming_only_for_fetch_witness :
  Bootstrap.call_streams
    (Bootstrap.WebAssembly_instantiateStreaming
       (Bootstrap.SrcFetch "c6006650182737e2.wasm") tt)
  = JS.truthy_opt_string (Some "c6006650182737e2.wasm")
    && negb (Bootstrap.isNode browser_env).
Proof.
  apply (streaming_only_for_fetch header_engine browser_env false
           (Some "c6006650182737e2.wasm") None (Some tt)).
  reflexivity.
Defined.

Lemma copies_issued_witness :
  ("/project/b.wasm", "/dist/assets/c6006650182737e2.wasm")
  ∈ Finalize.run_copies (Finalize.generateBundle fine two_copies to_dir).
Proof.
  apply (proj2 (copies_issued fine two_copies to_dir "/project/b.wasm"
                  "/dist/assets/c6006650182737e2.wasm")).
  split; [reflexivity|]. split; [reflexivity|].
  exists "/assets/c6006650182737e2.wasm".
  split; [vm_compute; reflexivity|]. split; reflexivity.
Defined.

(** With [b.wasm] missing the promise is rejected. *)
Lemma bundle_succeeds_iff_witness :
  Finalize.run_outcome (Finalize.generateBundle fine two_copies to_dir)
  = IoOk ()
  ∧ Finalize.run_outcome
      (Finalize.generateBundle b_missing two_copies to_file)
    ≠ IoOk ().
Proof.
  split.
  - apply (proj2 (bundle_succeeds_iff fine two_copies to_dir)).
    right. split; [reflexivity|]. intros name output _.
    split; [reflexivity|]. split; reflexivity.
  - intros Hok.
    apply (proj1 (bundle_succeeds_iff b_missing two_copies to_file)) in Hok.
    destruct Hok as [Hno | [_ Hall]]; [discriminate Hno|].
    destruct (Hall "/project/b.wasm" "/assets/c6006650182737e2.wasm")
      as (_ & Hread & _); [vm_compute; reflexivity|].
    discriminate Hread.
Defined.

Lemma finalize_copies_registered_assets_witness :
  ("/project/b.wasm" ∉ syncFiles (wasm small_limit))
  ∧ JS.test_wasm "/project/b.wasm" = true
  ∧ ∃ hash,
      "/out/assets/c6006650182737e2.wasm"
      = path_join (Finalize.output_base to_file)
          (publicPath (wasm small_limit) +:+ hash +:+ ".wasm")
      ∧ String.length hash = 16%nat
      ∧ string_forall is_lower_hex hash = true.
Proof.
  apply (proj2 (finalize_copies_registered_assets (wasm small_limit)
                  b_missing two_copies to_file
                  (reachable_load _ _ _ _
                     (reachable_load _ _ _ _ (reachable_init _))))
           "/project/b.wasm" "/out/assets/c6006650182737e2.wasm").
  vm_compute. apply list_elem_of_here.
Defined.
